(** * gotasource/inspector: the type tree of [src/type-inspector.ts] and its
      recursive walks [resolveDeepestType], [printTypeTree], [isAssignableTo].

    The TypeScript class [TypeInspector] only has static, side-effect-free
    methods over the tagged union [TypeInfo].  The embedding keeps the union
    member by member, keeps [undefined] as [None], and writes every recursive
    method with an explicit call-depth counter, so that both the results and
    the depth of the recursion can be stated. *)

From Stdlib Require Import String Ascii List ZArith Bool Arith Lia.
From Stdlib Require Import Floats.SpecFloat.
From Stdlib Require Import Numbers.DecimalString.
Import ListNotations.
Set Warnings "-register-all".
Local Open Scope list_scope.
Local Open Scope string_scope.

(** ** The data model: [export type TypeInfo] *)

(** The [kind] discriminator: one tag per string literal of the union. *)
Inductive Kind : Set :=
| KSimple | KPrimitive
| KArray | KReadonlyArray | KSet
| KPromise | KPromiseLike
| KObservable
| KMap | KRecord
| KUnion | KIntersection
| KOptional | KNullable
| KFunction | KClass | KInterface | KGeneric
| KLiteral | KEnum | KTuple | KObject | KIndexSignature
| KConditional | KMapped | KTemplateLiteral
| Kunknown.

Definition Kind_eq_dec (a b : Kind) : {a = b} + {a <> b}.
Proof. decide equality. Defined.

Definition Kind_eqb (a b : Kind) : bool :=
  if Kind_eq_dec a b then true else false.

(** The text of a tag, as [`${typeInfo.kind}`] prints it. *)
Definition kind_name (k : Kind) : string :=
  match k with
  | KSimple => "Simple" | KPrimitive => "Primitive"
  | KArray => "Array" | KReadonlyArray => "ReadonlyArray" | KSet => "Set"
  | KPromise => "Promise" | KPromiseLike => "PromiseLike"
  | KObservable => "Observable"
  | KMap => "Map" | KRecord => "Record"
  | KUnion => "Union" | KIntersection => "Intersection"
  | KOptional => "Optional" | KNullable => "Nullable"
  | KFunction => "Function" | KClass => "Class" | KInterface => "Interface"
  | KGeneric => "Generic" | KLiteral => "Literal" | KEnum => "Enum"
  | KTuple => "Tuple" | KObject => "Object"
  | KIndexSignature => "IndexSignature" | KConditional => "Conditional"
  | KMapped => "Mapped" | KTemplateLiteral => "TemplateLiteral"
  | Kunknown => "unknown"
  end.

(** A JavaScript number is an IEEE-754 double; [SFeqb] is its [===]:
    [NaN] differs from itself, the two zeros are equal. *)
Definition number : Set := spec_float.

(** [value: string | number | boolean] of a Literal node. *)
Inductive LiteralValue : Set :=
| LString (s : string)
| LNumber (x : number)
| LBoolean (b : bool).

(** [string | number], the values of an Enum node. *)
Inductive EnumValue : Set :=
| EString (s : string)
| ENumber (x : number).

(** The three members of the union that share the shape [{kind; inner}],
    and the one that shares [{kind; key; value}]. *)
Inductive CollectionKind : Set := CArray | CReadonlyArray | CSet.
Inductive DeferredKind : Set := DPromise | DPromiseLike.
Inductive KeyedKind : Set := MMap | MRecord.

(** [Record<string, T>]: a JavaScript object used as a map.  The entries are
    kept in insertion order, which is the order of [Object.keys] and
    [Object.entries]. *)
Definition Record_ (T : Type) : Type := list (string * T).

(** One constructor per member of the TypeScript union, in its order. *)
Inductive TypeInfo : Type :=
| TSimple (type : string)
| TPrimitive (type : string)
| TCollection (k : CollectionKind) (inner : TypeInfo)
| TDeferred (k : DeferredKind) (inner : TypeInfo)
| TObservable (inner : TypeInfo)
| TKeyed (k : KeyedKind) (key value : TypeInfo)
| TUnion (types : list TypeInfo)
| TIntersection (types : list TypeInfo)
| TOptional (inner : TypeInfo)
| TNullable (inner : TypeInfo)
| TFunction (parameters : list TypeInfo) (returnType : TypeInfo)
| TClass (name : string) (constructor : TypeInfo)
         (methods properties : Record_ TypeInfo)
| TInterface (name : string) (properties : Record_ TypeInfo)
| TGeneric (name : string) (typeParameters : list TypeInfo)
| TLiteral (value : LiteralValue)
| TEnum (name : string) (values : Record_ EnumValue)
| TTuple (elements : list TypeInfo)
| TObject (properties : Record_ TypeInfo)
| TIndexSignature (keyType valueType : TypeInfo)
| TConditional (checkType extendsType trueType falseType : TypeInfo)
| TMapped (keyType valueType : TypeInfo)
| TTemplateLiteral (parts : list string) (types : list TypeInfo)
| TUnknown.

Definition collection_kind (k : CollectionKind) : Kind :=
  match k with CArray => KArray | CReadonlyArray => KReadonlyArray | CSet => KSet end.
Definition deferred_kind (k : DeferredKind) : Kind :=
  match k with DPromise => KPromise | DPromiseLike => KPromiseLike end.
Definition keyed_kind (k : KeyedKind) : Kind :=
  match k with MMap => KMap | MRecord => KRecord end.

(** [typeInfo.kind] *)
Definition kind (t : TypeInfo) : Kind :=
  match t with
  | TSimple _ => KSimple
  | TPrimitive _ => KPrimitive
  | TCollection k _ => collection_kind k
  | TDeferred k _ => deferred_kind k
  | TObservable _ => KObservable
  | TKeyed k _ _ => keyed_kind k
  | TUnion _ => KUnion
  | TIntersection _ => KIntersection
  | TOptional _ => KOptional
  | TNullable _ => KNullable
  | TFunction _ _ => KFunction
  | TClass _ _ _ _ => KClass
  | TInterface _ _ => KInterface
  | TGeneric _ _ => KGeneric
  | TLiteral _ => KLiteral
  | TEnum _ _ => KEnum
  | TTuple _ => KTuple
  | TObject _ => KObject
  | TIndexSignature _ _ => KIndexSignature
  | TConditional _ _ _ _ => KConditional
  | TMapped _ _ => KMapped
  | TTemplateLiteral _ _ => KTemplateLiteral
  | TUnknown => Kunknown
  end.

(** *** Untyped field reads, [(typeInfo2 as any).field]

    Reading a field a node does not have gives [undefined]. *)
Definition get_type (t : TypeInfo) : option string :=
  match t with
  | TSimple s | TPrimitive s => Some s
  | _ => None
  end.

Definition get_value_literal (t : TypeInfo) : option LiteralValue :=
  match t with TLiteral v => Some v | _ => None end.

Definition get_inner (t : TypeInfo) : option TypeInfo :=
  match t with
  | TCollection _ i | TDeferred _ i | TObservable i
  | TOptional i | TNullable i => Some i
  | _ => None
  end.

Definition get_key (t : TypeInfo) : option TypeInfo :=
  match t with TKeyed _ k _ => Some k | _ => None end.

Definition get_value (t : TypeInfo) : option TypeInfo :=
  match t with TKeyed _ _ v => Some v | _ => None end.

Definition get_types (t : TypeInfo) : option (list TypeInfo) :=
  match t with
  | TUnion l | TIntersection l | TTemplateLiteral _ l => Some l
  | _ => None
  end.

Definition get_returnType (t : TypeInfo) : option TypeInfo :=
  match t with TFunction _ r => Some r | _ => None end.

Definition get_parameters (t : TypeInfo) : option (list TypeInfo) :=
  match t with TFunction p _ => Some p | _ => None end.

Definition get_elements (t : TypeInfo) : option (list TypeInfo) :=
  match t with TTuple e => Some e | _ => None end.

Definition get_properties (t : TypeInfo) : option (Record_ TypeInfo) :=
  match t with
  | TClass _ _ _ p | TInterface _ p | TObject p => Some p
  | _ => None
  end.

(** *** JavaScript values of Literal nodes *)

(** [typeof value] *)
Definition typeof (v : LiteralValue) : string :=
  match v with
  | LString _ => "string"
  | LNumber _ => "number"
  | LBoolean _ => "boolean"
  end.

(** [a === b] on literal values: no conversion between the three types. *)
Definition strict_equal (a b : LiteralValue) : bool :=
  match a, b with
  | LString x, LString y => String.eqb x y
  | LNumber x, LNumber y => SFeqb x y
  | LBoolean x, LBoolean y => Bool.eqb x y
  | _, _ => false
  end.

(** [a === b] where either side may be [undefined] (a field that is not
    there). *)
Definition strict_equal_opt {A} (eqb : A -> A -> bool) (a b : option A) : bool :=
  match a, b with
  | Some x, Some y => eqb x y
  | None, None => true
  | _, _ => false
  end.

(** *** Arrays and objects *)

(** [arr[i]]: [undefined] outside the array, also for [arr[-1]]. *)
Definition at_index {A} (arr : list A) (i : Z) : option A :=
  if (i <? 0)%Z then None else nth_error arr (Z.to_nat i).

(** [arr.length] *)
Definition js_length {A} (arr : list A) : Z := Z.of_nat (length arr).

(** [Object.keys(o)] *)
Definition Object_keys {T} (o : Record_ T) : list string := map fst o.

(** [o[key]] on an object used as a map.  [None] stands for a read that does
    not give a node: [undefined], or, for a name such as [toString] that only
    [Object.prototype] has, a value without [kind].  [isAssignableTo] answers
    [false] to both as its first argument: the value without [kind] passes
    [!typeInfo1], matches no kind, and can only be handed on unchanged to the
    members of a target Union. *)
Fixpoint get_property {T} (o : Record_ T) (key : string) : option T :=
  match o with
  | [] => None
  | (k, v) :: rest => if String.eqb k key then Some v else get_property rest key
  end.

(** ** Call depth

    Every recursive method carries a counter of the calls that may still be
    nested; a call made with the counter at zero is [TooDeep].  [Done r] is a
    call that returned [r]. *)
Inductive run (A : Type) : Type :=
| TooDeep
| Done (a : A).
Arguments TooDeep {A}.
Arguments Done {A} a.

Definition bind {A B} (m : run A) (k : A -> run B) : run B :=
  match m with
  | TooDeep => TooDeep
  | Done a => k a
  end.

Notation "x <- m ;; k" := (bind m (fun x => k))
  (at level 61, m at next level, right associativity).

(** [arr.some(f)]: stops at the first element [f] accepts. *)
Fixpoint someM {A} (f : A -> run bool) (arr : list A) : run bool :=
  match arr with
  | [] => Done false
  | x :: rest => b <- f x ;; if b then Done true else someM f rest
  end.

(** [arr.every(f)]: stops at the first element [f] rejects. *)
Fixpoint everyM {A} (f : A -> run bool) (arr : list A) : run bool :=
  match arr with
  | [] => Done true
  | x :: rest => b <- f x ;; if b then everyM f rest else Done false
  end.

(** [arr.every((x, i) => f(x, i))], the callback also given the index. *)
Fixpoint everyiM_from {A} (i : Z) (f : A -> Z -> run bool) (arr : list A) : run bool :=
  match arr with
  | [] => Done true
  | x :: rest =>
      b <- f x i ;; if b then everyiM_from (i + 1) f rest else Done false
  end.

Definition everyiM {A} (f : A -> Z -> run bool) (arr : list A) : run bool :=
  everyiM_from 0 f arr.

(** [arr.every((x, i) => f(x, i))] without the call counter. *)
Fixpoint everyi_from {A} (i : Z) (f : A -> Z -> bool) (arr : list A) : bool :=
  match arr with
  | [] => true
  | x :: rest => if f x i then everyi_from (i + 1) f rest else false
  end.

(** [arr.map(f)] *)
Fixpoint mapM {A B} (f : A -> run B) (arr : list A) : run (list B) :=
  match arr with
  | [] => Done []
  | x :: rest => y <- f x ;; ys <- mapM f rest ;; Done (y :: ys)
  end.

(** [a && b], [b] evaluated only when [a] is true. *)
Definition andM (a : run bool) (b : run bool) : run bool :=
  x <- a ;; if x then b else Done false.

(** [a || b], [b] evaluated only when [a] is false. *)
Definition orM (a : run bool) (b : run bool) : run bool :=
  x <- a ;; if x then Done true else b.

(** ** [TypeInspector.resolveDeepestType] *)

Fixpoint resolveDeepestTypeF (calls : nat) (typeInfo : option TypeInfo)
  : run (option TypeInfo) :=
  match calls with
  | O => TooDeep
  | S calls =>
      match typeInfo with
      | None => Done None
      | Some t =>
          match t with
          | TDeferred _ inner
          | TCollection _ inner
          | TObservable inner => resolveDeepestTypeF calls (Some inner)
          | TKeyed _ _ value => resolveDeepestTypeF calls (Some value)
          | TOptional inner
          | TNullable inner => resolveDeepestTypeF calls (Some inner)
          | TUnion types =>
              match find (fun t => negb (Kind_eqb (kind t) Kunknown)) types with
              | Some nonUnknownType => resolveDeepestTypeF calls (Some nonUnknownType)
              | None => Done (at_index types 0)
              end
          | TIntersection types =>
              resolveDeepestTypeF calls (at_index types (js_length types - 1))
          | TFunction _ returnType => resolveDeepestTypeF calls (Some returnType)
          | TClass _ _ _ _
          | TInterface _ _
          | TObject _ => Done (Some t)
          | TGeneric _ typeParameters =>
              resolveDeepestTypeF calls (at_index typeParameters 0)
          | TTuple elements => resolveDeepestTypeF calls (at_index elements 0)
          | TConditional _ _ trueType _ => resolveDeepestTypeF calls (Some trueType)
          | TMapped _ valueType => resolveDeepestTypeF calls (Some valueType)
          | TTemplateLiteral _ types => resolveDeepestTypeF calls (at_index types 0)
          | TSimple _
          | TPrimitive _
          | TLiteral _
          | TEnum _ _
          | TIndexSignature _ _
          | TUnknown => Done (Some t)
          end
      end
  end.

(** ** [TypeInspector.printTypeTree] *)

Definition dq : string := String (ascii_of_nat 34) EmptyString.
Definition nl : string := String (ascii_of_nat 10) EmptyString.

(** [s.repeat(n)] *)
Fixpoint repeat_string (s : string) (n : nat) : string :=
  match n with
  | O => EmptyString
  | S n => s ++ repeat_string s n
  end.

(** [arr.join(sep)] *)
Definition join (sep : string) (arr : list string) : string :=
  String.concat sep arr.

Section PrintTypeTree.
(** [JSON.stringify] of the host runtime, on a literal value and on the
    value map of an Enum node. *)
Variable JSON_stringify_literal : LiteralValue -> string.
Variable JSON_stringify_values : Record_ EnumValue -> string.

Fixpoint printTypeTreeF (calls : nat) (typeInfo : option TypeInfo) (depth : nat)
  : run string :=
  match calls with
  | O => TooDeep
  | S calls =>
      match typeInfo with
      | None => Done "undefined"
      | Some t =>
          let pad := repeat_string "  " depth in
          let sub ti := printTypeTreeF calls (Some ti) (depth + 2) in
          let inner_case (k : Kind) (inner : TypeInfo) :=
            i <- sub inner ;;
            Done (pad ++ "{ kind: " ++ dq ++ kind_name k ++ dq ++ "," ++ nl
                  ++ pad ++ "  inner: " ++ nl ++ i ++ nl ++ pad ++ "}") in
          let list_case (head : string) (field : string) (items : list TypeInfo) :=
            ts <- mapM sub items ;;
            Done (pad ++ head ++ nl ++ pad ++ "  " ++ field ++ ": [" ++ nl
                  ++ join ("," ++ nl) ts ++ nl ++ pad ++ "  ]" ++ nl ++ pad ++ "}") in
          let two_case (k : string) (f1 : string) (a : TypeInfo) (f2 : string) (b : TypeInfo) :=
            x <- sub a ;;
            y <- sub b ;;
            Done (pad ++ "{ kind: " ++ dq ++ k ++ dq ++ "," ++ nl
                  ++ pad ++ "  " ++ f1 ++ ": " ++ nl ++ x ++ "," ++ nl
                  ++ pad ++ "  " ++ f2 ++ ": " ++ nl ++ y ++ nl ++ pad ++ "}") in
          match t with
          | TSimple type =>
              Done (pad ++ "{ kind: " ++ dq ++ "Simple" ++ dq ++ ", type: "
                    ++ dq ++ type ++ dq ++ " }")
          | TPrimitive type =>
              Done (pad ++ "{ kind: " ++ dq ++ "Primitive" ++ dq ++ ", type: "
                    ++ dq ++ type ++ dq ++ " }")
          | TCollection k inner => inner_case (collection_kind k) inner
          | TDeferred k inner => inner_case (deferred_kind k) inner
          | TObservable inner => inner_case KObservable inner
          | TKeyed k key value =>
              two_case (kind_name (keyed_kind k)) "key" key "value" value
          | TUnion types =>
              list_case ("{ kind: " ++ dq ++ "Union" ++ dq ++ ",") "types" types
          | TIntersection types =>
              list_case ("{ kind: " ++ dq ++ "Intersection" ++ dq ++ ",") "types" types
          | TOptional inner => inner_case KOptional inner
          | TNullable inner => inner_case KNullable inner
          | TFunction parameters returnType =>
              ps <- mapM sub parameters ;;
              r <- sub returnType ;;
              Done (pad ++ "{ kind: " ++ dq ++ "Function" ++ dq ++ "," ++ nl
                    ++ pad ++ "  parameters: [" ++ nl ++ join ("," ++ nl) ps ++ nl
                    ++ pad ++ "  ]," ++ nl ++ pad ++ "  returnType: " ++ nl ++ r
                    ++ nl ++ pad ++ "}")
          | TClass name _ _ _ =>
              Done (pad ++ "{ kind: " ++ dq ++ "Class" ++ dq ++ ", name: "
                    ++ dq ++ name ++ dq ++ " }")
          | TInterface name _ =>
              Done (pad ++ "{ kind: " ++ dq ++ "Interface" ++ dq ++ ", name: "
                    ++ dq ++ name ++ dq ++ " }")
          | TGeneric name typeParameters =>
              tps <- mapM sub typeParameters ;;
              Done (pad ++ "{ kind: " ++ dq ++ "Generic" ++ dq ++ ", name: "
                    ++ dq ++ name ++ dq ++ ", typeParameters: [" ++ nl
                    ++ join ("," ++ nl) tps ++ nl ++ pad ++ "  ]" ++ nl ++ pad ++ "}")
          | TLiteral value =>
              Done (pad ++ "{ kind: " ++ dq ++ "Literal" ++ dq ++ ", value: "
                    ++ JSON_stringify_literal value ++ " }")
          | TEnum name values =>
              Done (pad ++ "{ kind: " ++ dq ++ "Enum" ++ dq ++ ", name: "
                    ++ dq ++ name ++ dq ++ ", values: "
                    ++ JSON_stringify_values values ++ " }")
          | TTuple elements =>
              list_case ("{ kind: " ++ dq ++ "Tuple" ++ dq ++ ",") "elements" elements
          | TObject properties =>
              es <- mapM (fun kv : string * TypeInfo =>
                            v <- sub (snd kv) ;;
                            Done (pad ++ "    " ++ fst kv ++ ": " ++ v)) properties ;;
              Done (pad ++ "{ kind: " ++ dq ++ "Object" ++ dq ++ "," ++ nl
                    ++ pad ++ "  properties: {" ++ nl ++ join ("," ++ nl) es ++ nl
                    ++ pad ++ "  }" ++ nl ++ pad ++ "}")
          | TIndexSignature keyType valueType =>
              two_case "IndexSignature" "keyType" keyType "valueType" valueType
          | TConditional checkType extendsType trueType falseType =>
              c <- sub checkType ;;
              e <- sub extendsType ;;
              tt <- sub trueType ;;
              ff <- sub falseType ;;
              Done (pad ++ "{ kind: " ++ dq ++ "Conditional" ++ dq ++ "," ++ nl
                    ++ pad ++ "  checkType: " ++ nl ++ c ++ "," ++ nl
                    ++ pad ++ "  extendsType: " ++ nl ++ e ++ "," ++ nl
                    ++ pad ++ "  trueType: " ++ nl ++ tt ++ "," ++ nl
                    ++ pad ++ "  falseType: " ++ nl ++ ff ++ nl ++ pad ++ "}")
          | TMapped keyType valueType =>
              two_case "Mapped" "keyType" keyType "valueType" valueType
          | TTemplateLiteral parts types =>
              ts <- mapM sub types ;;
              Done (pad ++ "{ kind: " ++ dq ++ "TemplateLiteral" ++ dq ++ "," ++ nl
                    ++ pad ++ "  parts: ["
                    ++ join ", " (map (fun p => dq ++ p ++ dq) parts) ++ "]," ++ nl
                    ++ pad ++ "  types: [" ++ nl ++ join ("," ++ nl) ts ++ nl
                    ++ pad ++ "  ]" ++ nl ++ pad ++ "}")
          | TUnknown => Done (pad ++ "{ kind: " ++ dq ++ "unknown" ++ dq ++ " }")
          end
      end
  end.
End PrintTypeTree.

(** ** [TypeInspector.isAssignableTo] and [areParametersCompatible]

    The two methods call each other through [this]; [self] is
    [this.isAssignableTo]. *)
Section IsAssignableTo.
Variable self : option TypeInfo -> option TypeInfo -> run bool.

(** A list or map field read from [typeInfo2 as any].  When the two kinds
    are equal the field is there ([same_kind_fields] below); where it is
    not, the source yields [undefined] through [?.] and the model answers
    [false]. *)
Definition with_field {X} (field : option X) (k : X -> run bool) : run bool :=
  match field with
  | Some x => k x
  | None => Done false
  end.

Definition areParametersCompatible (params1 params2 : list TypeInfo) : run bool :=
  if negb (js_length params1 =? js_length params2)%Z then Done false
  else everyiM (fun param i => self (at_index params2 i) (Some param)) params1.

(** [t.kind === "Primitive" && (t as any).type === "null"] *)
Definition is_null_primitive (t : TypeInfo) : bool :=
  Kind_eqb (kind t) KPrimitive
  && strict_equal_opt String.eqb (get_type t) (Some "null").

Definition isAssignableTo_body (typeInfo1 typeInfo2 : option TypeInfo) : run bool :=
  match typeInfo1, typeInfo2 with
  | Some t1, Some t2 =>
      if Kind_eqb (kind t1) (kind t2) then
        (* Same type *)
        match t1 with
        | TPrimitive type1 =>
            Done (strict_equal_opt String.eqb (Some type1) (get_type t2))
        | TLiteral value1 =>
            Done (strict_equal_opt strict_equal (Some value1) (get_value_literal t2))
        | TUnion types1 =>
            with_field (get_types t2) (fun types2 =>
              someM (fun t =>
                someM (fun t1' => self (Some t1') (Some t)) types1) types2)
        | TIntersection types1 =>
            with_field (get_types t2) (fun types2 =>
              everyM (fun t =>
                someM (fun t1' => self (Some t1') (Some t)) types1) types2)
        | TCollection _ inner1 => self (Some inner1) (get_inner t2)
        | TKeyed _ key1 value1 =>
            andM (self (Some key1) (get_key t2))
                 (self (Some value1) (get_value t2))
        | TDeferred _ inner1 => self (Some inner1) (get_inner t2)
        | TFunction parameters1 returnType1 =>
            andM (self (Some returnType1) (get_returnType t2))
                 (with_field (get_parameters t2) (fun parameters2 =>
                    areParametersCompatible parameters1 parameters2))
        | TTuple elements1 =>
            with_field (get_elements t2) (fun elements2 =>
              andM (Done (js_length elements1 =? js_length elements2)%Z)
                   (everyiM (fun elem i =>
                      self (Some elem) (at_index elements2 i)) elements1))
        | TObject properties1 =>
            with_field (get_properties t2) (fun properties2 =>
              everyM (fun key =>
                self (get_property properties1 key)
                     (get_property properties2 key))
                (Object_keys properties2))
        | _ => Done true
        end
      else
        match t1 with
        | TOptional inner1 =>
            (* Optional<T> is assignable to T *)
            self (Some inner1) (Some t2)
        | TNullable inner1 =>
            (* Nullable<T> is assignable to T | null *)
            orM (self (Some inner1) (Some t2))
                (Done (match t2 with
                       | TUnion types2 => existsb is_null_primitive types2
                       | _ => false
                       end))
        | _ =>
            if Kind_eqb (kind t1) KArray && Kind_eqb (kind t2) KArray then
              self (get_inner t1) (get_inner t2)
            else if Kind_eqb (kind t1) KSet && Kind_eqb (kind t2) KSet then
              self (get_inner t1) (get_inner t2)
            else if Kind_eqb (kind t1) KPromise && Kind_eqb (kind t2) KPromise then
              self (get_inner t1) (get_inner t2)
            else
              match t2 with
              | TUnion types2 =>
                  (* T is assignable to Union<T, ...> *)
                  someM (fun t => self (Some t1) (Some t)) types2
              | _ =>
                  match t1 with
                  | TIntersection types1 =>
                      (* Intersection<T, ...> is assignable to T *)
                      everyM (fun t => self (Some t) (Some t2)) types1
                  | TLiteral literalValue =>
                      match t2 with
                      | TPrimitive primitiveType =>
                          Done (String.eqb (typeof literalValue) primitiveType)
                      | _ => Done false
                      end
                  | _ => Done false
                  end
              end
        end
  | _, _ => Done false
  end.
End IsAssignableTo.

Fixpoint isAssignableToF (calls : nat) : option TypeInfo -> option TypeInfo -> run bool :=
  match calls with
  | O => fun _ _ => TooDeep
  | S calls => isAssignableTo_body (isAssignableToF calls)
  end.

(** ** The depth of a tree *)

Definition record_max {T} (f : T -> nat) (o : Record_ T) : nat :=
  list_max (map (fun kv => f (snd kv)) o).

(** The number of nodes on the longest path from the root: a leaf has
    depth 1. *)
Fixpoint depth (t : TypeInfo) : nat :=
  match t with
  | TSimple _ | TPrimitive _ | TLiteral _ | TEnum _ _ | TUnknown => 1
  | TCollection _ i | TDeferred _ i | TObservable i
  | TOptional i | TNullable i => S (depth i)
  | TKeyed _ a b | TIndexSignature a b | TMapped a b =>
      S (Nat.max (depth a) (depth b))
  | TUnion l | TIntersection l | TGeneric _ l | TTuple l
  | TTemplateLiteral _ l => S (list_max (map depth l))
  | TFunction ps r => S (Nat.max (list_max (map depth ps)) (depth r))
  | TClass _ c ms ps =>
      S (Nat.max (depth c)
           (Nat.max (list_max (map (fun kv => depth (snd kv)) ms))
                    (list_max (map (fun kv => depth (snd kv)) ps))))
  | TInterface _ ps | TObject ps =>
      S (list_max (map (fun kv => depth (snd kv)) ps))
  | TConditional a b c d =>
      S (Nat.max (Nat.max (depth a) (depth b)) (Nat.max (depth c) (depth d)))
  end.

(** An absent tree has depth 0. *)
Definition depthO (typeInfo : option TypeInfo) : nat :=
  match typeInfo with
  | None => 0
  | Some t => depth t
  end.

(** ** The methods as total functions

    Each method is run with one call more than the depth of its input
    allows it to nest; [resolveDeepestTypeF_total], [printTypeTreeF_total]
    and [isAssignableToF_total] below show that the [TooDeep] branch is
    never taken. *)
Definition resolveDeepestType (typeInfo : option TypeInfo) : option TypeInfo :=
  match resolveDeepestTypeF (S (depthO typeInfo)) typeInfo with
  | Done r => r
  | TooDeep => None
  end.

Definition isAssignableTo (typeInfo1 typeInfo2 : option TypeInfo) : bool :=
  match isAssignableToF (S (depthO typeInfo1 + depthO typeInfo2)) typeInfo1 typeInfo2 with
  | Done b => b
  | TooDeep => false
  end.

Definition printTypeTree (json_literal : LiteralValue -> string)
  (json_values : Record_ EnumValue -> string)
  (typeInfo : option TypeInfo) (depth : nat) : string :=
  match printTypeTreeF json_literal json_values (S (depthO typeInfo)) typeInfo depth with
  | Done s => s
  | TooDeep => EmptyString
  end.

(** A call that returned, whatever it returned. *)
Definition returns {A} (m : run A) : Prop := exists r, m = Done r.

(** The depth of a pair of trees, the measure of [isAssignableTo]: a
    recursive call may descend in the source only, in the target only, or in
    both. *)
Definition pair_depth (a b : option TypeInfo) : nat := depthO a + depthO b.

(** ** Predicates over whole trees *)

Section AllNodes.
Variable P : TypeInfo -> bool.

(** [P] holds at every node of the tree. *)
Fixpoint all_nodes (t : TypeInfo) : bool :=
  P t &&
  match t with
  | TSimple _ | TPrimitive _ | TLiteral _ | TEnum _ _ | TUnknown => true
  | TCollection _ i | TDeferred _ i | TObservable i
  | TOptional i | TNullable i => all_nodes i
  | TKeyed _ a b | TIndexSignature a b | TMapped a b =>
      all_nodes a && all_nodes b
  | TUnion l | TIntersection l | TGeneric _ l | TTuple l
  | TTemplateLiteral _ l => forallb all_nodes l
  | TFunction ps r => forallb all_nodes ps && all_nodes r
  | TClass _ c ms ps =>
      all_nodes c
      && forallb (fun kv => all_nodes (snd kv)) ms
      && forallb (fun kv => all_nodes (snd kv)) ps
  | TInterface _ ps | TObject ps => forallb (fun kv => all_nodes (snd kv)) ps
  | TConditional a b c d =>
      all_nodes a && all_nodes b && all_nodes c && all_nodes d
  end.
End AllNodes.

(** The invariant of the data model on one node: the member list of a Union
    or an Intersection is not empty. *)
Definition members_nonempty (t : TypeInfo) : bool :=
  match t with
  | TUnion [] | TIntersection [] => false
  | _ => true
  end.

(** The node is not a Literal whose value is [NaN]. *)
Definition not_NaN_literal (t : TypeInfo) : bool :=
  match t with
  | TLiteral (LNumber S754_nan) => false
  | _ => true
  end.

(** [t => t.kind !== "unknown"], the test of [find] in [resolveDeepestType]. *)
Definition known (t : TypeInfo) : bool := negb (Kind_eqb (kind t) Kunknown).

(** The kinds [resolveDeepestType] returns as they are. *)
Definition terminal_kind (k : Kind) : bool :=
  match k with
  | KSimple | KPrimitive | KLiteral | KEnum | KIndexSignature
  | KClass | KInterface | KObject | Kunknown => true
  | _ => false
  end.

(** ** Query accessors *)

(** [typeInfo?.kind === k] *)
Definition kind_is (typeInfo : option TypeInfo) (k : Kind) : bool :=
  match typeInfo with
  | Some t => Kind_eqb (kind t) k
  | None => false
  end.

Definition isUnion (typeInfo : option TypeInfo) : bool := kind_is typeInfo KUnion.
Definition isIntersection (typeInfo : option TypeInfo) : bool :=
  kind_is typeInfo KIntersection.
Definition isOptional (typeInfo : option TypeInfo) : bool := kind_is typeInfo KOptional.
Definition isNullable (typeInfo : option TypeInfo) : bool := kind_is typeInfo KNullable.
Definition isFunction (typeInfo : option TypeInfo) : bool := kind_is typeInfo KFunction.
Definition isClass (typeInfo : option TypeInfo) : bool := kind_is typeInfo KClass.
Definition isInterface (typeInfo : option TypeInfo) : bool :=
  kind_is typeInfo KInterface.
Definition isGeneric (typeInfo : option TypeInfo) : bool := kind_is typeInfo KGeneric.
Definition isLiteral (typeInfo : option TypeInfo) : bool := kind_is typeInfo KLiteral.
Definition isEnum (typeInfo : option TypeInfo) : bool := kind_is typeInfo KEnum.
Definition isTuple (typeInfo : option TypeInfo) : bool := kind_is typeInfo KTuple.
Definition isObject (typeInfo : option TypeInfo) : bool := kind_is typeInfo KObject.
Definition isPrimitive (typeInfo : option TypeInfo) : bool :=
  kind_is typeInfo KPrimitive.
Definition isArray (typeInfo : option TypeInfo) : bool :=
  kind_is typeInfo KArray || kind_is typeInfo KReadonlyArray.
Definition isPromise (typeInfo : option TypeInfo) : bool :=
  kind_is typeInfo KPromise || kind_is typeInfo KPromiseLike.
Definition isSet (typeInfo : option TypeInfo) : bool := kind_is typeInfo KSet.
Definition isMap (typeInfo : option TypeInfo) : bool :=
  kind_is typeInfo KMap || kind_is typeInfo KRecord.
Definition isObservable (typeInfo : option TypeInfo) : bool :=
  kind_is typeInfo KObservable.

(** [typeInfo.typeParameters] and [typeInfo.values], read like the fields
    above. *)
Definition get_typeParameters (t : TypeInfo) : option (list TypeInfo) :=
  match t with TGeneric _ l => Some l | _ => None end.

Definition get_values (t : TypeInfo) : option (Record_ EnumValue) :=
  match t with TEnum _ v => Some v | _ => None end.

(** [field || empty]: the field, or the empty form when it is not there. *)
Definition or_else {X} (field : option X) (empty : X) : X :=
  match field with
  | Some x => x
  | None => empty
  end.

(** [if (!typeInfo || typeInfo.kind !== k) return empty; return field || empty] *)
Definition extract {X} (typeInfo : option TypeInfo) (k : Kind)
  (field : TypeInfo -> option X) (empty : X) : X :=
  match typeInfo with
  | None => empty
  | Some t => if negb (Kind_eqb (kind t) k) then empty else or_else (field t) empty
  end.

Definition getUnionTypes (typeInfo : option TypeInfo) : list TypeInfo :=
  extract typeInfo KUnion get_types [].
Definition getIntersectionTypes (typeInfo : option TypeInfo) : list TypeInfo :=
  extract typeInfo KIntersection get_types [].
Definition getFunctionParameters (typeInfo : option TypeInfo) : list TypeInfo :=
  extract typeInfo KFunction get_parameters [].
Definition getTupleElements (typeInfo : option TypeInfo) : list TypeInfo :=
  extract typeInfo KTuple get_elements [].
Definition getObjectProperties (typeInfo : option TypeInfo) : Record_ TypeInfo :=
  extract typeInfo KObject get_properties [].
Definition getGenericTypeParameters (typeInfo : option TypeInfo) : list TypeInfo :=
  extract typeInfo KGeneric get_typeParameters [].
Definition getEnumValues (typeInfo : option TypeInfo) : Record_ EnumValue :=
  extract typeInfo KEnum get_values [].

(** [getFunctionReturnType] and [getLiteralValue] return the field itself,
    [undefined] off the kind. *)
Definition getFunctionReturnType (typeInfo : option TypeInfo) : option TypeInfo :=
  match typeInfo with
  | None => None
  | Some t => if negb (Kind_eqb (kind t) KFunction) then None else get_returnType t
  end.

Definition getLiteralValue (typeInfo : option TypeInfo) : option LiteralValue :=
  match typeInfo with
  | None => None
  | Some t => if negb (Kind_eqb (kind t) KLiteral) then None else get_value_literal t
  end.

(** *** [hasProperty] and [getPropertyType]

    Both read the property map as a plain JavaScript object, so a name the
    map does not have itself is looked for on [Object.prototype]. *)

(** What [o[key]] gives: an entry of the map, a member of the prototype
    (no type node), or [undefined]. *)
Inductive property_read (T : Type) : Type :=
| OwnProperty (v : T)
| PrototypeMember
| Undefined.
Arguments OwnProperty {T} v.
Arguments PrototypeMember {T}.
Arguments Undefined {T}.

Section PropertyAccess.
(** The names [Object.prototype] answers for ([toString], [constructor],
    ...). *)
Variable Object_prototype_has : string -> bool.

(** [key in o] *)
Definition js_in {T} (key : string) (o : Record_ T) : bool :=
  existsb (String.eqb key) (Object_keys o) || Object_prototype_has key.

(** [o[key]], with the prototype. *)
Definition read_property {T} (o : Record_ T) (key : string) : property_read T :=
  match get_property o key with
  | Some v => OwnProperty v
  | None => if Object_prototype_has key then PrototypeMember else Undefined
  end.

Definition hasProperty (typeInfo : option TypeInfo) (propertyName : string) : bool :=
  match typeInfo with
  | Some (TObject properties) => js_in propertyName properties
  | Some (TClass _ _ _ properties) => js_in propertyName properties
  | Some (TInterface _ properties) => js_in propertyName properties
  | _ => false
  end.

Definition getPropertyType (typeInfo : option TypeInfo) (propertyName : string)
  : property_read TypeInfo :=
  match typeInfo with
  | Some (TObject properties) => read_property properties propertyName
  | Some (TClass _ _ _ properties) => read_property properties propertyName
  | Some (TInterface _ properties) => read_property properties propertyName
  | _ => Undefined
  end.
End PropertyAccess.

(** ** Single-step unwraps *)

Definition getAwaitedType (typeInfo : option TypeInfo) : option TypeInfo :=
  match typeInfo with
  | None => None
  | Some t =>
      if Kind_eqb (kind t) KPromise || Kind_eqb (kind t) KPromiseLike
      then get_inner t
      else Some t
  end.

Definition getItemType (typeInfo : option TypeInfo) : option TypeInfo :=
  match typeInfo with
  | None => None
  | Some t =>
      if Kind_eqb (kind t) KArray || Kind_eqb (kind t) KReadonlyArray
         || Kind_eqb (kind t) KSet
      then get_inner t
      else Some t
  end.

Definition getSubscribeType (typeInfo : option TypeInfo) : option TypeInfo :=
  match typeInfo with
  | None => None
  | Some t => if Kind_eqb (kind t) KObservable then get_inner t else Some t
  end.

(** ** [TypeInspector.printTypePath] *)

(** A length in a template string: its decimal digits. *)
Definition string_of_length {A} (arr : list A) : string :=
  NilEmpty.string_of_uint (Nat.to_uint (length arr)).

Section PrintTypePath.
(** [Number.prototype.toString] of the host runtime. *)
Variable Number_toString : number -> string.

(** [`${value}`] of a literal value. *)
Definition template_of_literal (v : LiteralValue) : string :=
  match v with
  | LString s => s
  | LNumber x => Number_toString x
  | LBoolean true => "true"
  | LBoolean false => "false"
  end.

(** One turn of the [switch] in the loop: the text pushed on [path] and the
    new value of [current]. *)
Definition path_step (current : TypeInfo) : string * option TypeInfo :=
  match current with
  | TSimple type => (type, None)
  | TPrimitive type => (type, None)
  | TDeferred k inner => (kind_name (deferred_kind k), Some inner)
  | TObservable inner => (kind_name KObservable, Some inner)
  | TCollection k inner => (kind_name (collection_kind k), Some inner)
  | TKeyed k _ value => (kind_name (keyed_kind k), Some value)
  | TUnion types =>
      ("Union<" ++ string_of_length types ++ ">", at_index types 0)
  | TIntersection types =>
      ("Intersection<" ++ string_of_length types ++ ">",
       at_index types (js_length types - 1))
  | TOptional inner => ("Optional", Some inner)
  | TNullable inner => ("Nullable", Some inner)
  | TFunction _ returnType => ("Function", Some returnType)
  | TClass name _ _ _ => ("Class<" ++ name ++ ">", None)
  | TInterface name _ => ("Interface<" ++ name ++ ">", None)
  | TGeneric name typeParameters =>
      ("Generic<" ++ name ++ ">", at_index typeParameters 0)
  | TLiteral value => ("Literal<" ++ template_of_literal value ++ ">", None)
  | TEnum name _ => ("Enum<" ++ name ++ ">", None)
  | TTuple elements =>
      ("Tuple<" ++ string_of_length elements ++ ">", at_index elements 0)
  | TObject _ => ("Object", None)
  | TIndexSignature _ valueType => ("IndexSignature", Some valueType)
  | TConditional _ _ trueType _ => ("Conditional", Some trueType)
  | TMapped _ valueType => ("Mapped", Some valueType)
  | TTemplateLiteral _ types => ("TemplateLiteral", at_index types 0)
  | TUnknown => ("unknown", None)
  end.

(** [while (current) { ... }], with a counter of the turns left. *)
Fixpoint printTypePath_while (turns : nat) (path : list string)
  (current : option TypeInfo) {struct turns} : run (list string) :=
  match current with
  | None => Done path
  | Some c =>
      match turns with
      | O => TooDeep
      | S turns =>
          printTypePath_while turns (path ++ [fst (path_step c)])%list
                              (snd (path_step c))
      end
  end.

Definition printTypePathF (turns : nat) (typeInfo : option TypeInfo) : run string :=
  match typeInfo with
  | None => Done "undefined"
  | Some t =>
      path <- printTypePath_while turns [] (Some t) ;;
      Done (join " -> " path)
  end.

(** The loop takes no more turns than the tree is deep
    ([printTypePath_while_returns] below). *)
Definition printTypePath (typeInfo : option TypeInfo) : string :=
  match printTypePathF (depthO typeInfo) typeInfo with
  | Done s => s
  | TooDeep => EmptyString
  end.
End PrintTypePath.

(** ** Nodes of a tree *)

(** The direct children of a node. *)
Definition children (t : TypeInfo) : list TypeInfo :=
  match t with
  | TSimple _ | TPrimitive _ | TLiteral _ | TEnum _ _ | TUnknown => []
  | TCollection _ i | TDeferred _ i | TObservable i
  | TOptional i | TNullable i => [i]
  | TKeyed _ a b | TIndexSignature a b | TMapped a b => [a; b]
  | TUnion l | TIntersection l | TGeneric _ l | TTuple l
  | TTemplateLiteral _ l => l
  | TFunction ps r => (ps ++ [r])%list
  | TClass _ c ms ps => (c :: map snd ms ++ map snd ps)%list
  | TInterface _ ps | TObject ps => map snd ps
  | TConditional a b c d => [a; b; c; d]
  end.

(** [r] is a node of the tree [t]: [t] itself, or a node of one of its
    children. *)
Inductive occurs_in (r : TypeInfo) : TypeInfo -> Prop :=
| occurs_here : occurs_in r r
| occurs_below (t c : TypeInfo) :
    In c (children t) -> occurs_in r c -> occurs_in r t.

(** No list of member nodes is empty: Union, Intersection, Generic, Tuple and
    TemplateLiteral. *)
Definition lists_nonempty (t : TypeInfo) : bool :=
  match t with
  | TUnion [] | TIntersection [] | TGeneric _ [] | TTuple []
  | TTemplateLiteral _ [] => false
  | _ => true
  end.

(** The kinds the cross-kind rules of [isAssignableTo] treat before the
    Union rule: the wrappers Optional and Nullable. *)
Definition is_wrapper (k : Kind) : bool :=
  match k with
  | KOptional | KNullable => true
  | _ => false
  end.

(** The kinds whose same-kind check is the default [true]. *)
Definition default_kind (k : Kind) : bool :=
  match k with
  | KSimple | KObservable | KOptional | KNullable | KClass | KInterface
  | KGeneric | KEnum | KIndexSignature | KConditional | KMapped
  | KTemplateLiteral | Kunknown => true
  | _ => false
  end.

(** A tree used as a concrete input below:
    [Union<Literal "active", Object {id: number}>]. *)
Definition status_or_record : TypeInfo :=
  TUnion [TLiteral (LString "active"); TObject [("id", TPrimitive "number")]].

(** * Properties *)

(** ** Kinds and fields *)

Lemma Kind_eqb_refl (k : Kind) : Kind_eqb k k = true.
Proof. unfold Kind_eqb. destruct (Kind_eq_dec k k); congruence. Qed.

Lemma Kind_eqb_eq (a b : Kind) : Kind_eqb a b = true <-> a = b.
Proof.
  unfold Kind_eqb. destruct (Kind_eq_dec a b); split; congruence.
Qed.

Lemma Kind_eqb_neq (a b : Kind) : Kind_eqb a b = false <-> a <> b.
Proof.
  unfold Kind_eqb. destruct (Kind_eq_dec a b); split; congruence.
Qed.

(** Nodes of one kind carry the same fields: the reads
    [(typeInfo2 as any).field] of the same-kind rules find them. *)
Lemma same_kind_fields (t1 t2 : TypeInfo) :
  kind t1 = kind t2 ->
  (get_types t1 <> None -> get_types t2 <> None) /\
  (get_parameters t1 <> None -> get_parameters t2 <> None) /\
  (get_elements t1 <> None -> get_elements t2 <> None) /\
  (get_properties t1 <> None -> get_properties t2 <> None).
Proof.
  destruct t1 as [| |[]|[]| |[]| | | | | | | | | | | | | | | | |];
    destruct t2 as [| |[]|[]| |[]| | | | | | | | | | | | | | | | |];
    simpl; intros E; try discriminate E; repeat split; congruence.
Qed.

(** ** Depth of the children of a node *)

Lemma depth_pos (t : TypeInfo) : 0 < depth t.
Proof. destruct t; simpl; lia. Qed.

Lemma list_max_In (A : Type) (f : A -> nat) (l : list A) (x : A) :
  In x l -> f x <= list_max (map f l).
Proof.
  induction l as [|y l IH]; simpl; intros H; [contradiction|].
  destruct H as [->|H]; [lia|]. specialize (IH H). lia.
Qed.

Lemma at_index_In (A : Type) (l : list A) (i : Z) (x : A) :
  at_index l i = Some x -> In x l.
Proof.
  unfold at_index. destruct (i <? 0)%Z; [discriminate|]. apply nth_error_In.
Qed.

Lemma find_In (A : Type) (p : A -> bool) (l : list A) (x : A) :
  find p l = Some x -> In x l.
Proof. intros H. apply find_some in H. tauto. Qed.

Lemma at_index_depth (l : list TypeInfo) (i : Z) :
  depthO (at_index l i) <= list_max (map depth l).
Proof.
  destruct (at_index l i) as [x|] eqn:E; simpl; [|lia].
  apply list_max_In. eapply at_index_In; eauto.
Qed.

Lemma get_property_In (T : Type) (o : Record_ T) (key : string) (v : T) :
  get_property o key = Some v -> In (key, v) o.
Proof.
  induction o as [|[k w] o IH]; simpl; [discriminate|].
  destruct (String.eqb k key) eqn:E.
  - intros [= ->]. apply String.eqb_eq in E. subst. now left.
  - intros H. right. auto.
Qed.

Lemma get_property_depth (o : Record_ TypeInfo) (key : string) :
  depthO (get_property o key) <= list_max (map (fun kv => depth (snd kv)) o).
Proof.
  destruct (get_property o key) as [v|] eqn:E; simpl; [|lia].
  apply get_property_In in E.
  apply (list_max_In _ (fun kv => depth (snd kv)) o (key, v) E).
Qed.

Lemma get_inner_depth (t : TypeInfo) : depthO (get_inner t) < depth t.
Proof. destruct t; simpl; lia. Qed.

Lemma get_key_depth (t : TypeInfo) : depthO (get_key t) < depth t.
Proof. destruct t; simpl; lia. Qed.

Lemma get_value_depth (t : TypeInfo) : depthO (get_value t) < depth t.
Proof. destruct t; simpl; lia. Qed.

Lemma get_returnType_depth (t : TypeInfo) : depthO (get_returnType t) < depth t.
Proof. destruct t; simpl; lia. Qed.

Lemma get_types_depth (t : TypeInfo) (l : list TypeInfo) :
  get_types t = Some l -> list_max (map depth l) < depth t.
Proof. destruct t; simpl; intros [= <-]; lia. Qed.

Lemma get_parameters_depth (t : TypeInfo) (l : list TypeInfo) :
  get_parameters t = Some l -> list_max (map depth l) < depth t.
Proof. destruct t; simpl; intros [= <-]; lia. Qed.

Lemma get_elements_depth (t : TypeInfo) (l : list TypeInfo) :
  get_elements t = Some l -> list_max (map depth l) < depth t.
Proof. destruct t; simpl; intros [= <-]; lia. Qed.

Lemma get_properties_depth (t : TypeInfo) (o : Record_ TypeInfo) :
  get_properties t = Some o ->
  list_max (map (fun kv => depth (snd kv)) o) < depth t.
Proof. destruct t; simpl; intros [= <-]; lia. Qed.

(** ** The array methods under the call counter *)

Lemma someM_ext (A : Type) (f g : A -> run bool) (l : list A) :
  (forall x, In x l -> f x = g x) -> someM f l = someM g l.
Proof.
  induction l as [|x l IH]; simpl; intros H; [reflexivity|].
  rewrite (H x) by now left. rewrite IH by (intros; apply H; now right).
  reflexivity.
Qed.

Lemma everyM_ext (A : Type) (f g : A -> run bool) (l : list A) :
  (forall x, In x l -> f x = g x) -> everyM f l = everyM g l.
Proof.
  induction l as [|x l IH]; simpl; intros H; [reflexivity|].
  rewrite (H x) by now left. rewrite IH by (intros; apply H; now right).
  reflexivity.
Qed.

Lemma everyiM_from_ext (A : Type) (f g : A -> Z -> run bool) (l : list A) (i : Z) :
  (forall x j, In x l -> f x j = g x j) ->
  everyiM_from i f l = everyiM_from i g l.
Proof.
  revert i. induction l as [|x l IH]; simpl; intros i H; [reflexivity|].
  rewrite (H x i) by now left. rewrite IH by (intros; apply H; now right).
  reflexivity.
Qed.

Lemma mapM_ext (A B : Type) (f g : A -> run B) (l : list A) :
  (forall x, In x l -> f x = g x) -> mapM f l = mapM g l.
Proof.
  induction l as [|x l IH]; simpl; intros H; [reflexivity|].
  rewrite (H x) by now left. rewrite IH by (intros; apply H; now right).
  reflexivity.
Qed.

Lemma someM_Done (A : Type) (f : A -> bool) (l : list A) :
  someM (fun x => Done (f x)) l = Done (existsb f l).
Proof.
  induction l as [|x l IH]; simpl; [reflexivity|].
  destruct (f x); simpl; [reflexivity|exact IH].
Qed.

Lemma everyM_Done (A : Type) (f : A -> bool) (l : list A) :
  everyM (fun x => Done (f x)) l = Done (forallb f l).
Proof.
  induction l as [|x l IH]; simpl; [reflexivity|].
  destruct (f x); simpl; [exact IH|reflexivity].
Qed.

Lemma everyiM_from_Done (A : Type) (f : A -> Z -> bool) (l : list A) (i : Z) :
  everyiM_from i (fun x j => Done (f x j)) l = Done (everyi_from i f l).
Proof.
  revert i. induction l as [|x l IH]; simpl; intros i; [reflexivity|].
  destruct (f x i); simpl; [apply IH|reflexivity].
Qed.

Lemma mapM_Done (A B : Type) (f : A -> B) (l : list A) :
  mapM (fun x => Done (f x)) l = Done (map f l).
Proof.
  induction l as [|x l IH]; simpl; [reflexivity|]. rewrite IH. reflexivity.
Qed.

(** ** [isAssignableTo]: the body only calls itself on shallower pairs *)

Lemma areParametersCompatible_ext self self' (params1 params2 : list TypeInfo) :
  (forall x i, In x params1 ->
     self (at_index params2 i) (Some x) = self' (at_index params2 i) (Some x)) ->
  areParametersCompatible self params1 params2
  = areParametersCompatible self' params1 params2.
Proof.
  intros H. unfold areParametersCompatible, everyiM.
  destruct (negb _); [reflexivity|].
  apply everyiM_from_ext. intros x j Hx. now apply H.
Qed.

Lemma isAssignableTo_body_ext self self' (a b : option TypeInfo) :
  (forall x y, pair_depth x y < pair_depth a b -> self x y = self' x y) ->
  isAssignableTo_body self a b = isAssignableTo_body self' a b.
Proof.
  unfold pair_depth.
  destruct a as [t1|], b as [t2|]; simpl; try reflexivity.
  intros H.
  assert (Hin1 : forall (l1 : list TypeInfo) x y,
             list_max (map depth l1) < depth t1 -> In x l1 ->
             depthO y <= depth t2 ->
             self (Some x) y = self' (Some x) y).
  { intros l1 x y H1 Hx H2. apply H. simpl.
    pose proof (list_max_In _ depth l1 x Hx). lia. }
  assert (Hin2 : forall (l2 : list TypeInfo) x y,
             list_max (map depth l2) < depth t2 -> In y l2 ->
             depthO x <= depth t1 ->
             self x (Some y) = self' x (Some y)).
  { intros l2 x y H2 Hy H1. apply H. simpl.
    pose proof (list_max_In _ depth l2 y Hy). lia. }
  pose proof (get_inner_depth t1) as Hi1.
  pose proof (get_inner_depth t2) as Hi2.
  pose proof (get_key_depth t2) as Hk2.
  pose proof (get_value_depth t2) as Hv2.
  pose proof (get_returnType_depth t2) as Hr2.
  pose proof (depth_pos t1) as Hp1.
  pose proof (depth_pos t2) as Hp2.
  destruct (Kind_eqb (kind t1) (kind t2)).
  - (* the same-kind rules *)
    destruct t1; try reflexivity; simpl in *.
    + apply H; simpl; lia.
    + apply H; simpl; lia.
    + rewrite (H (Some t1_1) (get_key t2)) by (simpl; lia).
      rewrite (H (Some t1_2) (get_value t2)) by (simpl; lia). reflexivity.
    + destruct (get_types t2) as [types2|] eqn:E; simpl; [|reflexivity].
      apply get_types_depth in E.
      apply someM_ext. intros y Hy. apply someM_ext. intros x Hx.
      apply (Hin1 types); auto. simpl.
      pose proof (list_max_In _ depth types2 y Hy). lia.
    + destruct (get_types t2) as [types2|] eqn:E; simpl; [|reflexivity].
      apply get_types_depth in E.
      apply everyM_ext. intros y Hy. apply someM_ext. intros x Hx.
      apply (Hin1 types); auto. simpl.
      pose proof (list_max_In _ depth types2 y Hy). lia.
    + rewrite (H (Some t1) (get_returnType t2)) by (simpl; lia).
      destruct (get_parameters t2) as [parameters2|] eqn:E; simpl; [|reflexivity].
      apply get_parameters_depth in E.
      rewrite (areParametersCompatible_ext self self'); [reflexivity|].
      intros x i Hx. apply H.
      pose proof (list_max_In _ depth parameters x Hx).
      pose proof (at_index_depth parameters2 i). simpl. lia.
    + destruct (get_elements t2) as [elements2|] eqn:E; simpl; [|reflexivity].
      apply get_elements_depth in E.
      destruct (js_length elements =? js_length elements2)%Z; simpl; [|reflexivity].
      apply everyiM_from_ext. intros x j Hx.
      apply (Hin1 elements); auto.
      pose proof (at_index_depth elements2 j). lia.
    + destruct (get_properties t2) as [properties2|] eqn:E; simpl; [|reflexivity].
      apply get_properties_depth in E.
      apply everyM_ext. intros key _. apply H.
      pose proof (get_property_depth properties key).
      pose proof (get_property_depth properties2 key). simpl. lia.
  - (* the cross-kind rules *)
    assert (Hu : forall types2, list_max (map depth types2) < depth t2 ->
               someM (fun t => self (Some t1) (Some t)) types2
               = someM (fun t => self' (Some t1) (Some t)) types2).
    { intros types2 E. apply someM_ext. intros y Hy.
      apply (Hin2 types2); auto. }
    assert (Hrest : forall types2, t2 = TUnion types2 ->
               list_max (map depth types2) < depth t2).
    { intros types2 ->. simpl. lia. }
    destruct t1; simpl;
      try (apply H; simpl; lia);
      try (rewrite (H (Some t1) (Some t2)) by (simpl; lia); reflexivity);
      repeat match goal with
        | |- context [if ?c then _ else _] => destruct c
        end;
      try (apply H; simpl; lia);
      try (destruct t2; simpl; try reflexivity; apply Hu; simpl; lia).
    all: destruct t2; simpl; try reflexivity; try (apply Hu; simpl; lia).
    all: apply everyM_ext; intros x Hx; apply (Hin1 types); simpl; auto; lia.
Qed.

(** ** Calls return when the calls they make return *)

Lemma returns_Done (A : Type) (a : A) : returns (Done a).
Proof. now exists a. Qed.

Lemma returns_bind (A B : Type) (m : run A) (k : A -> run B) :
  returns m -> (forall a, returns (k a)) -> returns (x <- m ;; k x).
Proof. intros [a ->] H. simpl. apply H. Qed.

Lemma returns_andM (a b : run bool) : returns a -> returns b -> returns (andM a b).
Proof. intros [[] ->] H; simpl; [exact H|apply returns_Done]. Qed.

Lemma returns_orM (a b : run bool) : returns a -> returns b -> returns (orM a b).
Proof. intros [[] ->] H; simpl; [apply returns_Done|exact H]. Qed.

Lemma returns_someM (A : Type) (f : A -> run bool) (l : list A) :
  (forall x, In x l -> returns (f x)) -> returns (someM f l).
Proof.
  induction l as [|x l IH]; simpl; intros H; [apply returns_Done|].
  destruct (H x) as [[] ->]; simpl; [now left|apply returns_Done|].
  apply IH. intros; apply H; now right.
Qed.

Lemma returns_everyM (A : Type) (f : A -> run bool) (l : list A) :
  (forall x, In x l -> returns (f x)) -> returns (everyM f l).
Proof.
  induction l as [|x l IH]; simpl; intros H; [apply returns_Done|].
  destruct (H x) as [[] ->]; simpl; [now left| |apply returns_Done].
  apply IH. intros; apply H; now right.
Qed.

Lemma returns_everyiM_from (A : Type) (f : A -> Z -> run bool) (l : list A) (i : Z) :
  (forall x j, In x l -> returns (f x j)) -> returns (everyiM_from i f l).
Proof.
  revert i. induction l as [|x l IH]; simpl; intros i H; [apply returns_Done|].
  destruct (H x i) as [[] ->]; simpl; [now left| |apply returns_Done].
  apply IH. intros; apply H; now right.
Qed.

Lemma returns_mapM (A B : Type) (f : A -> run B) (l : list A) :
  (forall x, In x l -> returns (f x)) -> returns (mapM f l).
Proof.
  induction l as [|x l IH]; simpl; intros H; [apply returns_Done|].
  destruct (H x) as [y ->]; simpl; [now left|].
  destruct IH as [ys ->]; [intros; apply H; now right|]. simpl.
  apply returns_Done.
Qed.

Lemma isAssignableTo_body_returns self (a b : option TypeInfo) :
  (forall x y, returns (self x y)) -> returns (isAssignableTo_body self a b).
Proof.
  intros H. destruct a as [t1|], b as [t2|]; simpl; try apply returns_Done.
  destruct (Kind_eqb (kind t1) (kind t2)).
  - destruct t1; simpl; try apply returns_Done; try apply H;
      unfold with_field, areParametersCompatible, everyiM;
      repeat match goal with
        | |- returns (match ?f with Some _ => _ | None => _ end) =>
            destruct f; [|apply returns_Done]
        | |- returns (if ?c then _ else _) => destruct c
        | |- returns (andM _ _) => apply returns_andM
        | |- returns (someM _ _) => apply returns_someM; intros
        | |- returns (everyM _ _) => apply returns_everyM; intros
        | |- returns (everyiM_from _ _ _) => apply returns_everyiM_from; intros
        | |- returns (Done _) => apply returns_Done
        | |- returns (self _ _) => apply H
        end.
  - destruct t1; simpl;
      repeat match goal with
        | |- returns (if ?c then _ else _) => destruct c
        | |- returns (match ?t with TUnion _ => _ | _ => _ end) => destruct t
        | |- returns (match ?t with TPrimitive _ => _ | _ => _ end) => destruct t
        | |- returns (orM _ _) => apply returns_orM
        | |- returns (someM _ _) => apply returns_someM; intros
        | |- returns (everyM _ _) => apply returns_everyM; intros
        | |- returns (Done _) => apply returns_Done
        | |- returns (self _ _) => apply H
        end.
Qed.

(** ** [isAssignableTo] returns, within the depth of its two trees *)

Lemma isAssignableToF_stable (d : nat) :
  forall n m a b, pair_depth a b < d ->
    pair_depth a b < n -> pair_depth a b < m ->
    isAssignableToF n a b = isAssignableToF m a b.
Proof.
  induction d as [|d IH]; intros n m a b Hd Hn Hm; [lia|].
  destruct n as [|n]; [lia|]. destruct m as [|m]; [lia|]. simpl.
  apply isAssignableTo_body_ext. intros x y Hxy. apply IH; lia.
Qed.

Lemma isAssignableToF_returns (n : nat) :
  forall a b, pair_depth a b < n -> returns (isAssignableToF n a b).
Proof.
  induction n as [|n IH]; intros a b Hn; [lia|]. simpl.
  set (self' := fun x y =>
         if Nat.ltb (pair_depth x y) (pair_depth a b) then isAssignableToF n x y
         else Done false).
  rewrite (isAssignableTo_body_ext _ self').
  - apply isAssignableTo_body_returns. intros x y. unfold self'.
    destruct (Nat.ltb_spec (pair_depth x y) (pair_depth a b));
      [apply IH; lia|apply returns_Done].
  - intros x y Hxy. unfold self'.
    destruct (Nat.ltb_spec (pair_depth x y) (pair_depth a b)); [reflexivity|lia].
Qed.

Lemma isAssignableToF_Done (n : nat) (a b : option TypeInfo) :
  pair_depth a b < n -> isAssignableToF n a b = Done (isAssignableTo a b).
Proof.
  intros Hn. unfold isAssignableTo. fold (pair_depth a b).
  rewrite (isAssignableToF_stable (S (pair_depth a b)) n (S (pair_depth a b)) a b)
    by lia.
  destruct (isAssignableToF_returns (S (pair_depth a b)) a b) as [r ->]; [lia|].
  reflexivity.
Qed.

(** The defining equation of the total function: the body of the method,
    with the recursive calls answered by the function itself. *)
Lemma isAssignableTo_unfold (a b : option TypeInfo) :
  isAssignableTo_body (fun x y => Done (isAssignableTo x y)) a b
  = Done (isAssignableTo a b).
Proof.
  rewrite <- (isAssignableToF_Done (S (pair_depth a b)) a b) by lia. simpl.
  symmetry. apply isAssignableTo_body_ext. intros x y Hxy.
  apply isAssignableToF_Done. exact Hxy.
Qed.

(** ** [resolveDeepestType] and [printTypeTree] return, within the depth of
    the tree *)

Lemma find_depth (p : TypeInfo -> bool) (l : list TypeInfo) (x : TypeInfo) :
  find p l = Some x -> depth x <= list_max (map depth l).
Proof. intros H. apply list_max_In. eapply find_In; eauto. Qed.

Lemma resolveDeepestTypeF_stable (n : nat) :
  forall m typeInfo, depthO typeInfo < n -> depthO typeInfo < m ->
    resolveDeepestTypeF n typeInfo = resolveDeepestTypeF m typeInfo.
Proof.
  induction n as [|n IH]; intros m typeInfo Hn Hm; [lia|].
  destruct m as [|m]; [lia|].
  destruct typeInfo as [t|]; [|reflexivity].
  destruct t; simpl in *; try reflexivity; try (apply IH; simpl; lia).
  - destruct (find _ types) as [x|] eqn:E; [|reflexivity].
    apply find_depth in E. apply IH; simpl; lia.
  - pose proof (at_index_depth types (js_length types - 1)). apply IH; lia.
  - pose proof (at_index_depth typeParameters 0). apply IH; lia.
  - pose proof (at_index_depth elements 0). apply IH; lia.
  - pose proof (at_index_depth types 0). apply IH; lia.
Qed.

Lemma resolveDeepestTypeF_returns (n : nat) :
  forall typeInfo, depthO typeInfo < n -> returns (resolveDeepestTypeF n typeInfo).
Proof.
  induction n as [|n IH]; intros typeInfo Hn; [lia|].
  destruct typeInfo as [t|]; [|apply returns_Done].
  destruct t; simpl in *; try apply returns_Done; try (apply IH; simpl; lia).
  - destruct (find _ types) as [x|] eqn:E; [|apply returns_Done].
    apply find_depth in E. apply IH; simpl; lia.
  - pose proof (at_index_depth types (js_length types - 1)). apply IH; lia.
  - pose proof (at_index_depth typeParameters 0). apply IH; lia.
  - pose proof (at_index_depth elements 0). apply IH; lia.
  - pose proof (at_index_depth types 0). apply IH; lia.
Qed.

Lemma resolveDeepestTypeF_Done (n : nat) (typeInfo : option TypeInfo) :
  depthO typeInfo < n ->
  resolveDeepestTypeF n typeInfo = Done (resolveDeepestType typeInfo).
Proof.
  intros Hn. unfold resolveDeepestType.
  rewrite (resolveDeepestTypeF_stable n (S (depthO typeInfo))) by lia.
  destruct (resolveDeepestTypeF_returns (S (depthO typeInfo)) typeInfo) as [r ->];
    [lia|reflexivity].
Qed.

(** The defining equation of [resolveDeepestType]: one call of the method
    with one call of fuel left for each level below. *)
Lemma resolveDeepestType_unfold (t : TypeInfo) :
  Done (resolveDeepestType (Some t)) = resolveDeepestTypeF (S (depth t)) (Some t).
Proof. symmetry. apply resolveDeepestTypeF_Done. simpl. lia. Qed.

Section PrintTypeTreeReturns.
Variable json_literal : LiteralValue -> string.
Variable json_values : Record_ EnumValue -> string.

Lemma printTypeTreeF_returns (n : nat) :
  forall typeInfo d, depthO typeInfo < n ->
    returns (printTypeTreeF json_literal json_values n typeInfo d).
Proof.
  induction n as [|n IH]; intros typeInfo d Hn; [lia|].
  destruct typeInfo as [t|]; [|apply returns_Done].
  assert (Hl : forall l : list TypeInfo, list_max (map depth l) < n ->
            returns (mapM (fun ti =>
               printTypeTreeF json_literal json_values n (Some ti) (d + 2)) l)).
  { intros l Hlt. apply returns_mapM. intros x Hx. apply IH. simpl.
    pose proof (list_max_In _ depth l x Hx). lia. }
  destruct t; simpl in *; try apply returns_Done;
    repeat (apply returns_bind;
            [first [apply IH; simpl; lia | apply Hl; lia | idtac]
            |intros; try apply returns_Done]).
  apply returns_mapM. intros [key v] Hx. simpl.
  apply returns_bind; [|intros; apply returns_Done].
  apply IH. simpl.
  pose proof (list_max_In _ (fun kv => depth (snd kv)) properties (key, v) Hx).
  simpl in *. lia.
Qed.

Lemma printTypeTreeF_stable (n : nat) :
  forall m typeInfo d, depthO typeInfo < n -> depthO typeInfo < m ->
    printTypeTreeF json_literal json_values n typeInfo d
    = printTypeTreeF json_literal json_values m typeInfo d.
Proof.
  induction n as [|n IH]; intros m typeInfo d Hn Hm; [lia|].
  destruct m as [|m]; [lia|].
  destruct typeInfo as [t|]; [|reflexivity].
  assert (Hl : forall l : list TypeInfo,
            list_max (map depth l) < n -> list_max (map depth l) < m ->
            mapM (fun ti =>
               printTypeTreeF json_literal json_values n (Some ti) (d + 2)) l
            = mapM (fun ti =>
               printTypeTreeF json_literal json_values m (Some ti) (d + 2)) l).
  { intros l H1 H2. apply mapM_ext. intros x Hx.
    pose proof (list_max_In _ depth l x Hx). apply IH; simpl; lia. }
  destruct t; simpl in *; try reflexivity;
    repeat match goal with
      | |- context [printTypeTreeF _ _ n (Some ?x) ?k] =>
          rewrite (IH m (Some x) k) by (simpl; lia)
      | |- context [mapM _ ?l] =>
          rewrite (Hl l) by lia
      end;
    try reflexivity.
  f_equal. apply mapM_ext. intros [key v] Hx. simpl.
  pose proof (list_max_In _ (fun kv => depth (snd kv)) properties (key, v) Hx).
  simpl in *. rewrite (IH m (Some v)) by (simpl; lia). reflexivity.
Qed.

Lemma printTypeTreeF_Done (n : nat) (typeInfo : option TypeInfo) (d : nat) :
  depthO typeInfo < n ->
  printTypeTreeF json_literal json_values n typeInfo d
  = Done (printTypeTree json_literal json_values typeInfo d).
Proof.
  intros Hn. unfold printTypeTree.
  rewrite (printTypeTreeF_stable n (S (depthO typeInfo))) by lia.
  destruct (printTypeTreeF_returns (S (depthO typeInfo)) typeInfo d) as [r ->];
    [lia|reflexivity].
Qed.
End PrintTypeTreeReturns.

(** ** The rules of [isAssignableTo], one equation per rule *)

Lemma Done_inj (A : Type) (x y : A) : Done x = Done y -> x = y.
Proof. congruence. Qed.

Lemma isAssignableTo_absent_source (b : option TypeInfo) :
  isAssignableTo None b = false.
Proof. reflexivity. Qed.

Lemma isAssignableTo_absent_target (a : option TypeInfo) :
  isAssignableTo a None = false.
Proof.
  apply Done_inj. rewrite <- isAssignableTo_unfold. now destruct a.
Qed.

Lemma someM_someM_Done (f : TypeInfo -> TypeInfo -> bool) (l1 l2 : list TypeInfo) :
  someM (fun t => someM (fun s => Done (f s t)) l1) l2
  = Done (existsb (fun t => existsb (fun s => f s t) l1) l2).
Proof.
  rewrite <- someM_Done. apply someM_ext. intros t _. apply someM_Done.
Qed.

Lemma everyM_someM_Done (f : TypeInfo -> TypeInfo -> bool) (l1 l2 : list TypeInfo) :
  everyM (fun t => someM (fun s => Done (f s t)) l1) l2
  = Done (forallb (fun t => existsb (fun s => f s t) l1) l2).
Proof.
  rewrite <- everyM_Done. apply everyM_ext. intros t _. apply someM_Done.
Qed.

Lemma isAssignableTo_Union_Union (types1 types2 : list TypeInfo) :
  isAssignableTo (Some (TUnion types1)) (Some (TUnion types2))
  = existsb (fun t =>
      existsb (fun t1 => isAssignableTo (Some t1) (Some t)) types1) types2.
Proof.
  apply Done_inj. rewrite <- isAssignableTo_unfold. simpl.
  apply (someM_someM_Done (fun s t => isAssignableTo (Some s) (Some t))).
Qed.

Lemma isAssignableTo_Intersection_Intersection (types1 types2 : list TypeInfo) :
  isAssignableTo (Some (TIntersection types1)) (Some (TIntersection types2))
  = forallb (fun t =>
      existsb (fun t1 => isAssignableTo (Some t1) (Some t)) types1) types2.
Proof.
  apply Done_inj. rewrite <- isAssignableTo_unfold. simpl.
  apply (everyM_someM_Done (fun s t => isAssignableTo (Some s) (Some t))).
Qed.

Lemma isAssignableTo_Object_Object (properties1 properties2 : Record_ TypeInfo) :
  isAssignableTo (Some (TObject properties1)) (Some (TObject properties2))
  = forallb (fun key =>
      isAssignableTo (get_property properties1 key) (get_property properties2 key))
      (Object_keys properties2).
Proof.
  apply Done_inj. rewrite <- isAssignableTo_unfold. simpl.
  apply everyM_Done.
Qed.

Lemma isAssignableTo_Function_Function
  (parameters1 parameters2 : list TypeInfo) (returnType1 returnType2 : TypeInfo) :
  isAssignableTo (Some (TFunction parameters1 returnType1))
                 (Some (TFunction parameters2 returnType2))
  = isAssignableTo (Some returnType1) (Some returnType2)
    && (if negb (js_length parameters1 =? js_length parameters2)%Z then false
        else everyi_from 0 (fun param i =>
               isAssignableTo (at_index parameters2 i) (Some param)) parameters1).
Proof.
  apply Done_inj. rewrite <- isAssignableTo_unfold. simpl.
  unfold areParametersCompatible, everyiM.
  destruct (isAssignableTo (Some returnType1) (Some returnType2)); simpl;
    [|reflexivity].
  destruct (negb _); [reflexivity|].
  apply (everyiM_from_Done _
           (fun param i => isAssignableTo (at_index parameters2 i) (Some param))).
Qed.

Lemma isAssignableTo_Tuple_Tuple (elements1 elements2 : list TypeInfo) :
  isAssignableTo (Some (TTuple elements1)) (Some (TTuple elements2))
  = (js_length elements1 =? js_length elements2)%Z
    && everyi_from 0 (fun elem i =>
         isAssignableTo (Some elem) (at_index elements2 i)) elements1.
Proof.
  apply Done_inj. rewrite <- isAssignableTo_unfold. simpl.
  destruct (js_length elements1 =? js_length elements2)%Z; simpl; [|reflexivity].
  apply (everyiM_from_Done _
           (fun elem i => isAssignableTo (Some elem) (at_index elements2 i))).
Qed.

Lemma isAssignableTo_Class_Class name1 c1 ms1 ps1 name2 c2 ms2 ps2 :
  isAssignableTo (Some (TClass name1 c1 ms1 ps1)) (Some (TClass name2 c2 ms2 ps2))
  = true.
Proof. apply Done_inj. rewrite <- isAssignableTo_unfold. reflexivity. Qed.

Lemma isAssignableTo_Interface_Interface name1 ps1 name2 ps2 :
  isAssignableTo (Some (TInterface name1 ps1)) (Some (TInterface name2 ps2)) = true.
Proof. apply Done_inj. rewrite <- isAssignableTo_unfold. reflexivity. Qed.

Lemma isAssignableTo_Literal_Primitive (value : LiteralValue) (type : string) :
  isAssignableTo (Some (TLiteral value)) (Some (TPrimitive type))
  = String.eqb (typeof value) type.
Proof. apply Done_inj. rewrite <- isAssignableTo_unfold. reflexivity. Qed.

(** [everyi_from] read position by position. *)
Lemma everyi_from_true (A : Type) (f : A -> Z -> bool) (l : list A) (k : Z) :
  everyi_from k f l = true <->
  forall (j : nat) (x : A), nth_error l j = Some x -> f x (k + Z.of_nat j)%Z = true.
Proof.
  revert k. induction l as [|y l IH]; intros k; simpl.
  - split; [|reflexivity]. intros _ [|j] x; discriminate.
  - split.
    + intros H [|j] x Hx; simpl in Hx.
      * injection Hx as <-. rewrite Z.add_0_r.
        destruct (f y k); [reflexivity|discriminate].
      * destruct (f y k); [|discriminate].
        replace (k + Z.of_nat (S j))%Z with (k + 1 + Z.of_nat j)%Z by lia.
        apply (proj1 (IH (k + 1)%Z) H j x Hx).
    + intros H. pose proof (H 0%nat y eq_refl) as H0. rewrite Z.add_0_r in H0.
      rewrite H0. apply IH. intros j x Hx.
      replace (k + 1 + Z.of_nat j)%Z with (k + Z.of_nat (S j))%Z by lia.
      apply H. exact Hx.
Qed.

Lemma at_index_of_nat (A : Type) (l : list A) (j : nat) :
  at_index l (Z.of_nat j) = nth_error l j.
Proof.
  unfold at_index. destruct (Z.ltb_spec (Z.of_nat j) 0); [lia|].
  now rewrite Nat2Z.id.
Qed.

Lemma forallb_ext_In (A : Type) (f g : A -> bool) (l : list A) :
  (forall x, In x l -> f x = g x) -> forallb f l = forallb g l.
Proof.
  induction l as [|x l IH]; simpl; intros H; [reflexivity|].
  rewrite (H x) by now left. rewrite IH by (intros; apply H; now right).
  reflexivity.
Qed.

Lemma js_length_eqb (A : Type) (l1 l2 : list A) :
  (js_length l1 =? js_length l2)%Z = true <-> length l1 = length l2.
Proof. unfold js_length. rewrite Z.eqb_eq. lia. Qed.

(** * The claims *)

(** ** Union against Union *)

(** C1, as stated, fails: the source [Union<string>] is assignable to the
    target [Union<string, number>], although the target member [number] is
    matched by no source member. *)
Lemma union_to_union_not_every_member :
  isAssignableTo (Some (TUnion [TPrimitive "string"]))
                 (Some (TUnion [TPrimitive "string"; TPrimitive "number"])) = true
  /\ ~ (forall t, In t [TPrimitive "string"; TPrimitive "number"] ->
          exists s, In s [TPrimitive "string"]
                    /\ isAssignableTo (Some s) (Some t) = true).
Proof.
  split; [reflexivity|].
  intros H. destruct (H (TPrimitive "number")) as [s [Hs E]].
  - right; now left.
  - destruct Hs as [<-|[]]. vm_compute in E. discriminate E.
Qed.

(** C1, amended: for two Union nodes, [isAssignableTo(source, target)] is
    true if and only if SOME member [t] of [target.types] is matched by some
    member [s] of [source.types] with [isAssignableTo(s, t)] true (the source
    uses [some] on the target's members; [every] is the Intersection rule). *)
Theorem isAssignableTo_Union_some_member (types1 types2 : list TypeInfo) :
  isAssignableTo (Some (TUnion types1)) (Some (TUnion types2)) = true <->
  exists t, In t types2
            /\ exists s, In s types1 /\ isAssignableTo (Some s) (Some t) = true.
Proof.
  rewrite isAssignableTo_Union_Union, existsb_exists.
  split; intros [t [Ht H]]; exists t; (split; [exact Ht|]);
    now apply existsb_exists.
Qed.

(** ** Class against Class, Interface against Interface *)

(** C2, as stated, fails: a Class without properties is assignable to a
    Class that has the property [x], which the structural rule of Object
    rejects. *)
Lemma class_properties_not_compared :
  isAssignableTo (Some (TClass "A" TUnknown [] []))
                 (Some (TClass "B" TUnknown [] [("x", TPrimitive "number")])) = true
  /\ ~ (forall key, In key (Object_keys [("x", TPrimitive "number")]) ->
          exists s, get_property (@nil (string * TypeInfo)) key = Some s
                    /\ isAssignableTo (Some s)
                         (get_property [("x", TPrimitive "number")] key) = true).
Proof.
  split; [reflexivity|].
  intros H. destruct (H "x") as [s [Hs _]]; [now left|discriminate Hs].
Qed.

(** C2, amended: for every two nodes of kind Class, and for every two nodes
    of kind Interface, [isAssignableTo] returns true whatever their property
    maps are: the two kinds have no rule of their own in the same-kind switch
    and take its default. *)
Theorem isAssignableTo_Class_Interface_default :
  (forall name1 c1 ms1 ps1 name2 c2 ms2 ps2,
      isAssignableTo (Some (TClass name1 c1 ms1 ps1))
                     (Some (TClass name2 c2 ms2 ps2)) = true)
  /\ (forall name1 ps1 name2 ps2,
      isAssignableTo (Some (TInterface name1 ps1))
                     (Some (TInterface name2 ps2)) = true).
Proof.
  split; intros.
  - apply isAssignableTo_Class_Class.
  - apply isAssignableTo_Interface_Interface.
Qed.

(** ** Object against Object *)

(** C3: for two Object nodes, [isAssignableTo(source, target)] is true if and
    only if for every property key of the target the source has the key and
    [isAssignableTo(source.properties[key], target.properties[key])] is true;
    a key of the target missing on the source makes the result false; and
    the result depends on the source only through the properties the target
    names, so extra source properties do not change it. *)
Theorem isAssignableTo_Object_width (properties1 properties2 : Record_ TypeInfo) :
  (isAssignableTo (Some (TObject properties1)) (Some (TObject properties2)) = true <->
   forall key, In key (Object_keys properties2) ->
     exists s, get_property properties1 key = Some s
               /\ isAssignableTo (Some s) (get_property properties2 key) = true)
  /\ (forall key, In key (Object_keys properties2) ->
        get_property properties1 key = None ->
        isAssignableTo (Some (TObject properties1)) (Some (TObject properties2)) = false)
  /\ (forall properties1',
        (forall key, In key (Object_keys properties2) ->
           get_property properties1' key = get_property properties1 key) ->
        isAssignableTo (Some (TObject properties1')) (Some (TObject properties2))
        = isAssignableTo (Some (TObject properties1)) (Some (TObject properties2))).
Proof.
  rewrite isAssignableTo_Object_Object, forallb_forall.
  repeat split.
  - intros H key Hk. specialize (H key Hk).
    destruct (get_property properties1 key) as [s|]; [now exists s|].
    discriminate H.
  - intros H key Hk. destruct (H key Hk) as [s [-> E]]. exact E.
  - intros key Hk E. apply not_true_is_false. rewrite forallb_forall.
    intros H. specialize (H key Hk). rewrite E in H. discriminate H.
  - intros properties1' H. rewrite isAssignableTo_Object_Object.
    apply forallb_ext_In. intros key Hk. now rewrite H.
Qed.

(** C3 at a concrete input: the target asks for [id], the source only has
    [name]. *)
Lemma isAssignableTo_Object_width_witness :
  In "id" (Object_keys [("id", TPrimitive "number")])
  /\ get_property [("name", TPrimitive "string")] "id" = None
  /\ isAssignableTo (Some (TObject [("name", TPrimitive "string")]))
                    (Some (TObject [("id", TPrimitive "number")])) = false.
Proof.
  split; [now left|]. split; [reflexivity|].
  apply (proj1 (proj2 (isAssignableTo_Object_width
                         [("name", TPrimitive "string")]
                         [("id", TPrimitive "number")])) "id");
    [now left|reflexivity].
Defined.

(** ** Function against Function *)

(** C4: for two Function nodes, [isAssignableTo(source, target)] is true if
    and only if [isAssignableTo(source.returnType, target.returnType)] is
    true, the parameter lists have equal length, and
    [isAssignableTo(target.parameters[i], source.parameters[i])] is true at
    every position [i]; unequal arity makes the result false. *)
Theorem isAssignableTo_Function_variance
  (parameters1 parameters2 : list TypeInfo) (returnType1 returnType2 : TypeInfo) :
  (isAssignableTo (Some (TFunction parameters1 returnType1))
                  (Some (TFunction parameters2 returnType2)) = true <->
   isAssignableTo (Some returnType1) (Some returnType2) = true
   /\ length parameters1 = length parameters2
   /\ forall i p1 p2,
        nth_error parameters1 i = Some p1 -> nth_error parameters2 i = Some p2 ->
        isAssignableTo (Some p2) (Some p1) = true)
  /\ (length parameters1 <> length parameters2 ->
      isAssignableTo (Some (TFunction parameters1 returnType1))
                     (Some (TFunction parameters2 returnType2)) = false).
Proof.
  rewrite isAssignableTo_Function_Function.
  destruct (js_length parameters1 =? js_length parameters2)%Z eqn:El; simpl.
  - apply js_length_eqb in El. split; [|intros H; contradiction].
    rewrite andb_true_iff, everyi_from_true. split.
    + intros [Hr Hp]. repeat split; auto.
      intros i p1 p2 H1 H2. specialize (Hp i p1 H1). simpl in Hp.
      rewrite at_index_of_nat, H2 in Hp. exact Hp.
    + intros [Hr [_ Hp]]. split; [exact Hr|].
      intros j x Hx. simpl. rewrite at_index_of_nat.
      destruct (nth_error parameters2 j) as [p2|] eqn:E2.
      * eapply Hp; eauto.
      * apply nth_error_None in E2.
        assert (nth_error parameters1 j <> None) as Hn by congruence.
        apply nth_error_Some in Hn. lia.
  - assert (length parameters1 <> length parameters2) as Hne.
    { intros E. apply js_length_eqb in E. congruence. }
    rewrite andb_false_r. split; [|reflexivity].
    split; [discriminate|]. intros [_ [E _]]. contradiction.
Qed.

(** C4 at a concrete input: one parameter against none. *)
Lemma isAssignableTo_Function_variance_witness :
  length [TPrimitive "number"] <> length (@nil TypeInfo)
  /\ isAssignableTo (Some (TFunction [TPrimitive "number"] (TPrimitive "boolean")))
                    (Some (TFunction [] (TPrimitive "boolean"))) = false.
Proof.
  split; [discriminate|].
  apply (proj2 (isAssignableTo_Function_variance
                  [TPrimitive "number"] [] (TPrimitive "boolean")
                  (TPrimitive "boolean"))).
  discriminate.
Defined.

(** ** Literal against Primitive *)

(** C5: for a Literal source and a Primitive target, [isAssignableTo] is true
    if and only if [typeof] of the literal's value equals the primitive's tag
    name; a string literal is assignable to the [string] primitive and a
    number literal is not. *)
Theorem isAssignableTo_Literal_typeof :
  (forall (value : LiteralValue) (type : string),
      isAssignableTo (Some (TLiteral value)) (Some (TPrimitive type)) = true
      <-> typeof value = type)
  /\ (forall s : string,
      isAssignableTo (Some (TLiteral (LString s))) (Some (TPrimitive "string")) = true)
  /\ (forall x : number,
      isAssignableTo (Some (TLiteral (LNumber x))) (Some (TPrimitive "string")) = false).
Proof.
  repeat split; intros; rewrite isAssignableTo_Literal_Primitive in *;
    try (now apply String.eqb_eq); reflexivity.
Qed.

(** ** [resolveDeepestType] on Union, Generic and Tuple *)

Lemma resolveDeepestType_Union (types : list TypeInfo) :
  resolveDeepestType (Some (TUnion types))
  = match find known types with
    | Some nonUnknownType => resolveDeepestType (Some nonUnknownType)
    | None => at_index types 0
    end.
Proof.
  apply Done_inj. rewrite resolveDeepestType_unfold.
  remember (depth (TUnion types)) as calls eqn:Ec. simpl. fold known.
  destruct (find known types) as [x|] eqn:E; [|reflexivity].
  apply find_depth in E. apply resolveDeepestTypeF_Done.
  subst calls. simpl. lia.
Qed.

Lemma resolveDeepestType_Generic (name : string) (typeParameters : list TypeInfo) :
  resolveDeepestType (Some (TGeneric name typeParameters))
  = resolveDeepestType (at_index typeParameters 0).
Proof.
  apply Done_inj. rewrite resolveDeepestType_unfold.
  remember (depth (TGeneric name typeParameters)) as calls eqn:Ec. simpl.
  apply resolveDeepestTypeF_Done. subst calls. simpl.
  apply Nat.lt_succ_r, at_index_depth.
Qed.

Lemma resolveDeepestType_Tuple (elements : list TypeInfo) :
  resolveDeepestType (Some (TTuple elements))
  = resolveDeepestType (at_index elements 0).
Proof.
  apply Done_inj. rewrite resolveDeepestType_unfold.
  remember (depth (TTuple elements)) as calls eqn:Ec. simpl.
  apply resolveDeepestTypeF_Done. subst calls. simpl.
  apply Nat.lt_succ_r, at_index_depth.
Qed.

Lemma known_false (t : TypeInfo) : known t = false <-> kind t = Kunknown.
Proof. unfold known. rewrite negb_false_iff. apply Kind_eqb_eq. Qed.

Lemma known_true (t : TypeInfo) : known t = true <-> kind t <> Kunknown.
Proof. unfold known. rewrite negb_true_iff. apply Kind_eqb_neq. Qed.

Lemma find_first (A : Type) (p : A -> bool) (pre post : list A) (m : A) :
  (forall x, In x pre -> p x = false) -> p m = true ->
  find p (pre ++ m :: post) = Some m.
Proof.
  induction pre as [|x pre IH]; simpl; intros H Hm; [now rewrite Hm|].
  rewrite (H x) by now left. apply IH; auto.
Qed.

Lemma find_all_false (A : Type) (p : A -> bool) (l : list A) :
  (forall x, In x l -> p x = false) -> find p l = None.
Proof.
  induction l as [|x l IH]; simpl; intros H; [reflexivity|].
  rewrite (H x) by now left. apply IH; auto.
Qed.

(** C6: on a Union, [resolveDeepestType] returns the deep resolution of the
    first member whose kind is not unknown; when every member is unknown it
    returns the first member itself; and on [Union<unknown, number>] it
    returns the number Primitive. *)
Theorem resolveDeepestType_Union_first_known :
  (forall (pre post : list TypeInfo) (m : TypeInfo),
      (forall t, In t pre -> kind t = Kunknown) -> kind m <> Kunknown ->
      resolveDeepestType (Some (TUnion (pre ++ m :: post)))
      = resolveDeepestType (Some m))
  /\ (forall (first : TypeInfo) (rest : list TypeInfo),
      (forall t, In t (first :: rest) -> kind t = Kunknown) ->
      resolveDeepestType (Some (TUnion (first :: rest))) = Some first)
  /\ resolveDeepestType (Some (TUnion [TUnknown; TPrimitive "number"]))
     = Some (TPrimitive "number").
Proof.
  repeat split.
  - intros pre post m Hpre Hm. rewrite resolveDeepestType_Union.
    rewrite (find_first _ known pre post m); [reflexivity| |now apply known_true].
    intros x Hx. apply known_false. auto.
  - intros first rest H. rewrite resolveDeepestType_Union.
    rewrite find_all_false; [reflexivity|].
    intros x Hx. apply known_false. auto.
Qed.

(** C6 at a concrete input: [Union<unknown, Array<string>, unknown>]. *)
Lemma resolveDeepestType_Union_first_known_witness :
  (forall t, In t [TUnknown] -> kind t = Kunknown)
  /\ kind (TCollection CArray (TPrimitive "string")) <> Kunknown
  /\ resolveDeepestType
       (Some (TUnion ([TUnknown]
                      ++ TCollection CArray (TPrimitive "string") :: [TUnknown])))
     = resolveDeepestType (Some (TCollection CArray (TPrimitive "string"))).
Proof.
  assert (H : forall t, In t [TUnknown] -> kind t = Kunknown).
  { intros t [<-|[]]. reflexivity. }
  split; [exact H|]. split; [discriminate|].
  apply (proj1 resolveDeepestType_Union_first_known); [exact H|discriminate].
Defined.

(** C7, as stated, fails: on a Generic node without type parameters
    [resolveDeepestType] returns [undefined], which is no Unknown node. *)
Lemma resolveDeepestType_empty_Generic_absent :
  resolveDeepestType (Some (TGeneric "T" [])) = None
  /\ resolveDeepestType (Some (TGeneric "T" [])) <> Some TUnknown.
Proof. split; [reflexivity|discriminate]. Qed.

(** C7, amended: for every Generic node whose [typeParameters] list is empty,
    and for the Tuple node whose [elements] list is empty,
    [resolveDeepestType] returns the absent result [undefined]: reading
    position 0 of the empty list gives [undefined], and the method answers
    [undefined] to an absent input. *)
Theorem resolveDeepestType_empty_Generic_Tuple :
  (forall name : string, resolveDeepestType (Some (TGeneric name [])) = None)
  /\ resolveDeepestType (Some (TTuple [])) = None.
Proof. split; reflexivity. Qed.

(** ** [resolveDeepestType] ends on a terminal kind *)

Lemma resolveDeepestTypeF_terminal (n : nat) :
  forall typeInfo r, resolveDeepestTypeF n typeInfo = Done (Some r) ->
    terminal_kind (kind r) = true.
Proof.
  induction n as [|n IH]; intros typeInfo r H; [discriminate H|].
  destruct typeInfo as [t|]; [|discriminate H].
  destruct t; simpl in H;
    try (injection H as <-; reflexivity);
    try (eapply IH; exact H).
  fold known in H. destruct (find known types) as [x|] eqn:E.
  - eapply IH; exact H.
  - injection H as H. apply at_index_In in H.
    pose proof (find_none _ _ E r H) as Hr. apply known_false in Hr.
    now rewrite Hr.
Qed.

Lemma resolveDeepestType_terminal_id (r : TypeInfo) :
  terminal_kind (kind r) = true -> resolveDeepestType (Some r) = Some r.
Proof.
  destruct r as [| |[]|[]| |[]| | | | | | | | | | | | | | | | |];
    simpl; intros H; try discriminate H; reflexivity.
Qed.

(** C10: [resolveDeepestType] is idempotent, on every node and on absent
    input; whenever it returns a node, the kind of that node is one of
    Simple, Primitive, Literal, Enum, IndexSignature, Class, Interface,
    Object, unknown, and [resolveDeepestType] returns such a node as it is. *)
Theorem resolveDeepestType_idempotent :
  (forall typeInfo : option TypeInfo,
      resolveDeepestType (resolveDeepestType typeInfo) = resolveDeepestType typeInfo)
  /\ (forall (typeInfo : option TypeInfo) (r : TypeInfo),
      resolveDeepestType typeInfo = Some r ->
      terminal_kind (kind r) = true /\ resolveDeepestType (Some r) = Some r).
Proof.
  assert (Ht : forall typeInfo r, resolveDeepestType typeInfo = Some r ->
                 terminal_kind (kind r) = true).
  { intros typeInfo r H.
    apply (resolveDeepestTypeF_terminal (S (depthO typeInfo)) typeInfo).
    rewrite resolveDeepestTypeF_Done by lia. now rewrite H. }
  split.
  - intros typeInfo. destruct (resolveDeepestType typeInfo) as [r|] eqn:E.
    + apply resolveDeepestType_terminal_id. eapply Ht; eauto.
    + reflexivity.
  - intros typeInfo r H. split; [eapply Ht; eauto|].
    apply resolveDeepestType_terminal_id. eapply Ht; eauto.
Qed.

(** C10 at a concrete input: [Promise<Object {}>] resolves to the Object,
    which resolves to itself. *)
Lemma resolveDeepestType_idempotent_witness :
  resolveDeepestType (Some (TDeferred DPromise (TObject [])))
  = Some (TObject [])
  /\ terminal_kind (kind (TObject [])) = true
  /\ resolveDeepestType (Some (TObject [])) = Some (TObject []).
Proof.
  split; [reflexivity|].
  apply (proj2 resolveDeepestType_idempotent
           (Some (TDeferred DPromise (TObject []))) (TObject [])).
  reflexivity.
Defined.

(** ** Termination and depth of the recursion *)



(** The bound of [isAssignableTo] is on the two depths together: one call
    may descend in the source only and the next in the target only, so the
    larger of the two depths is not enough. *)
Remark isAssignableTo_descends_in_either_tree :
  let source := TOptional (TOptional (TPrimitive "string")) in
  let target := TUnion [TUnion [TPrimitive "string"]] in
  depth source = 3 /\ depth target = 3
  /\ isAssignableToF 4 (Some source) (Some target) = TooDeep
  /\ isAssignableToF 5 (Some source) (Some target) = Done true.
Proof. repeat split. Qed.

(** ** Reflexivity *)

Lemma SFeqb_refl (x : number) : x <> S754_nan -> SFeqb x x = true.
Proof.
  unfold SFeqb. destruct x as [s|s| |s m e]; simpl; intros H;
    try reflexivity; try congruence.
  - now destruct s.
  - rewrite Z.compare_refl.
    assert (Pos.compare_cont Eq m m = Eq) as -> by apply Pos.compare_refl.
    now destruct s.
Qed.

Lemma strict_equal_refl (v : LiteralValue) :
  not_NaN_literal (TLiteral v) = true -> strict_equal v v = true.
Proof.
  destruct v as [s|x|b]; simpl; intros H.
  - apply String.eqb_refl.
  - apply SFeqb_refl. intros ->. discriminate H.
  - now destruct b.
Qed.

Lemma Object_keys_get_property (T : Type) (o : Record_ T) (key : string) :
  In key (Object_keys o) -> exists v, get_property o key = Some v /\ In (key, v) o.
Proof.
  intros H. destruct (get_property o key) as [v|] eqn:E.
  - exists v. split; [reflexivity|]. now apply get_property_In.
  - exfalso. induction o as [|[k w] o IH]; simpl in *; [contradiction|].
    destruct (String.eqb k key) eqn:Ek; [discriminate E|].
    destruct H as [->|H]; [|auto]. rewrite String.eqb_refl in Ek. discriminate Ek.
Qed.

(** C9, as stated, fails: the Literal node of the number [NaN] satisfies the
    invariant of the data model and is not assignable to itself, since
    [NaN === NaN] is false. *)
Lemma NaN_literal_not_assignable_to_itself :
  all_nodes members_nonempty (TLiteral (LNumber S754_nan)) = true
  /\ isAssignableTo (Some (TLiteral (LNumber S754_nan)))
                    (Some (TLiteral (LNumber S754_nan))) = false.
Proof. split; reflexivity. Qed.

Lemma isAssignableTo_reflexive_upto (n : nat) :
  forall t, depth t <= n ->
    all_nodes members_nonempty t = true ->
    all_nodes not_NaN_literal t = true ->
    isAssignableTo (Some t) (Some t) = true.
Proof.
  induction n as [|n IH]; intros t Hd Hm Hn.
  { pose proof (depth_pos t). lia. }
  assert (IHl : forall l x, In x l -> list_max (map depth l) <= n ->
             forallb (all_nodes members_nonempty) l = true ->
             forallb (all_nodes not_NaN_literal) l = true ->
             isAssignableTo (Some x) (Some x) = true).
  { intros l x Hx Hl H1 H2. apply IH.
    - pose proof (list_max_In _ depth l x Hx). lia.
    - exact (proj1 (forallb_forall _ l) H1 x Hx).
    - exact (proj1 (forallb_forall _ l) H2 x Hx). }
  destruct t as [| |k i|k i| |k a b|l|l| | |ps r| | | |v| |l|o| | | | |];
    try (apply Done_inj; rewrite <- isAssignableTo_unfold; reflexivity);
    simpl in Hd, Hm, Hn;
    repeat match goal with
      | H : _ && _ = true |- _ => apply andb_true_iff in H; destruct H
      end.
  - (* Primitive *)
    apply Done_inj. rewrite <- isAssignableTo_unfold. simpl.
    now rewrite String.eqb_refl.
  - (* Array, ReadonlyArray, Set *)
    apply Done_inj. rewrite <- isAssignableTo_unfold.
    destruct k; simpl; f_equal; apply IH; auto; lia.
  - (* Promise, PromiseLike *)
    apply Done_inj. rewrite <- isAssignableTo_unfold.
    destruct k; simpl; f_equal; apply IH; auto; lia.
  - (* Map, Record *)
    apply Done_inj. rewrite <- isAssignableTo_unfold.
    destruct k; simpl; rewrite (IH a), (IH b) by (auto; lia); reflexivity.
  - (* Union *)
    rewrite isAssignableTo_Union_Union.
    destruct l as [|x l]; [discriminate|].
    apply existsb_exists. exists x. split; [now left|].
    apply existsb_exists. exists x. split; [now left|].
    apply (IHl (x :: l)); auto; [now left|lia].
  - (* Intersection *)
    rewrite isAssignableTo_Intersection_Intersection.
    apply forallb_forall. intros x Hx.
    apply existsb_exists. exists x. split; [exact Hx|].
    apply (IHl l); auto; lia.
  - (* Function *)
    rewrite isAssignableTo_Function_Function.
    rewrite (IH r) by (auto; lia). rewrite Z.eqb_refl. simpl.
    apply everyi_from_true. intros j x Hx. simpl.
    rewrite at_index_of_nat, Hx.
    apply (IHl ps); auto; [eapply nth_error_In; eauto|lia].
  - (* Literal *)
    apply Done_inj. rewrite <- isAssignableTo_unfold. simpl.
    rewrite strict_equal_refl; [reflexivity|].
    simpl. now destruct v as [|[]|].
  - (* Tuple *)
    rewrite isAssignableTo_Tuple_Tuple. rewrite Z.eqb_refl. simpl.
    apply everyi_from_true. intros j x Hx. simpl.
    rewrite at_index_of_nat, Hx.
    apply (IHl l); auto; [eapply nth_error_In; eauto|lia].
  - (* Object *)
    rewrite isAssignableTo_Object_Object.
    apply forallb_forall. intros key Hk.
    destruct (Object_keys_get_property _ o key Hk) as [v [-> Hv]].
    apply IH.
    + pose proof (list_max_In _ (fun kv => depth (snd kv)) o (key, v) Hv).
      simpl in *. lia.
    + match goal with
      | H : forallb _ o = true |- all_nodes members_nonempty v = true =>
          exact (proj1 (forallb_forall _ o) H (key, v) Hv)
      end.
    + match goal with
      | H : forallb _ o = true |- all_nodes not_NaN_literal v = true =>
          exact (proj1 (forallb_forall _ o) H (key, v) Hv)
      end.
Qed.

(** C9, amended: [isAssignableTo] is reflexive on every type node whose
    Union and Intersection member lists are all non-empty and in which no
    Literal node has the value [NaN]: on such a node [t],
    [isAssignableTo(t, t)] returns true. *)
Theorem isAssignableTo_reflexive (t : TypeInfo) :
  all_nodes members_nonempty t = true ->
  all_nodes not_NaN_literal t = true ->
  isAssignableTo (Some t) (Some t) = true.
Proof. apply (isAssignableTo_reflexive_upto (depth t)). lia. Qed.

(** C9, amended, at [status_or_record]. *)
Lemma isAssignableTo_reflexive_witness :
  all_nodes members_nonempty status_or_record = true
  /\ all_nodes not_NaN_literal status_or_record = true
  /\ isAssignableTo (Some status_or_record) (Some status_or_record) = true.
Proof.
  split; [reflexivity|]. split; [reflexivity|].
  apply isAssignableTo_reflexive; reflexivity.
Defined.

(** * Further properties of [isAssignableTo] *)

(** ** The rules taken apart *)

Lemma isAssignableTo_default_eq (t1 t2 : TypeInfo) :
  kind t1 = kind t2 -> default_kind (kind t1) = true ->
  isAssignableTo (Some t1) (Some t2) = true.
Proof.
  intros E D. apply Done_inj. rewrite <- isAssignableTo_unfold. simpl.
  rewrite (proj2 (Kind_eqb_eq _ _) E).
  destruct t1 as [| |[]|[]| |[]| | | | | | | | | | | | | | | | |];
    simpl in D; try discriminate D; reflexivity.
Qed.

Lemma isAssignableTo_Primitive_eq (type1 type2 : string) :
  isAssignableTo (Some (TPrimitive type1)) (Some (TPrimitive type2))
  = String.eqb type1 type2.
Proof. apply Done_inj. rewrite <- isAssignableTo_unfold. reflexivity. Qed.

Lemma isAssignableTo_Literal_eq (value1 value2 : LiteralValue) :
  isAssignableTo (Some (TLiteral value1)) (Some (TLiteral value2))
  = strict_equal value1 value2.
Proof. apply Done_inj. rewrite <- isAssignableTo_unfold. reflexivity. Qed.

Lemma isAssignableTo_Collection_eq (k : CollectionKind) (inner1 inner2 : TypeInfo) :
  isAssignableTo (Some (TCollection k inner1)) (Some (TCollection k inner2))
  = isAssignableTo (Some inner1) (Some inner2).
Proof. apply Done_inj. rewrite <- isAssignableTo_unfold. now destruct k. Qed.

Lemma isAssignableTo_Deferred_eq (k : DeferredKind) (inner1 inner2 : TypeInfo) :
  isAssignableTo (Some (TDeferred k inner1)) (Some (TDeferred k inner2))
  = isAssignableTo (Some inner1) (Some inner2).
Proof. apply Done_inj. rewrite <- isAssignableTo_unfold. now destruct k. Qed.

Lemma isAssignableTo_Keyed_eq (k : KeyedKind) (key1 value1 key2 value2 : TypeInfo) :
  isAssignableTo (Some (TKeyed k key1 value1)) (Some (TKeyed k key2 value2))
  = isAssignableTo (Some key1) (Some key2)
    && isAssignableTo (Some value1) (Some value2).
Proof.
  apply Done_inj. rewrite <- isAssignableTo_unfold.
  destruct k; simpl; now destruct (isAssignableTo (Some key1) (Some key2)).
Qed.

Lemma isAssignableTo_Optional_eq (inner1 : TypeInfo) (t2 : TypeInfo) :
  kind t2 <> KOptional ->
  isAssignableTo (Some (TOptional inner1)) (Some t2)
  = isAssignableTo (Some inner1) (Some t2).
Proof.
  intros Hk. apply Done_inj. rewrite <- isAssignableTo_unfold. simpl.
  destruct (Kind_eqb KOptional (kind t2)) eqn:E; [|reflexivity].
  apply Kind_eqb_eq in E. congruence.
Qed.

(** [typeInfo2.kind === "Union" && typeInfo2.types.some(null primitive)] *)
Lemma isAssignableTo_Nullable_eq (inner1 : TypeInfo) (t2 : TypeInfo) :
  kind t2 <> KNullable ->
  isAssignableTo (Some (TNullable inner1)) (Some t2)
  = isAssignableTo (Some inner1) (Some t2)
    || match t2 with
       | TUnion types2 => existsb is_null_primitive types2
       | _ => false
       end.
Proof.
  intros Hk. apply Done_inj. rewrite <- isAssignableTo_unfold. simpl.
  destruct (Kind_eqb KNullable (kind t2)) eqn:E.
  - apply Kind_eqb_eq in E. congruence.
  - simpl. now destruct (isAssignableTo (Some inner1) (Some t2)).
Qed.

Lemma isAssignableTo_Union_target_eq (t1 : TypeInfo) (types2 : list TypeInfo) :
  kind t1 <> KUnion -> is_wrapper (kind t1) = false ->
  isAssignableTo (Some t1) (Some (TUnion types2))
  = existsb (fun t => isAssignableTo (Some t1) (Some t)) types2.
Proof.
  intros Hu Hw. apply Done_inj. rewrite <- isAssignableTo_unfold.
  rewrite <- someM_Done.
  destruct t1 as [| |[]|[]| |[]| | | | | | | | | | | | | | | | |];
    simpl in *; try discriminate Hw; try congruence; reflexivity.
Qed.

Lemma isAssignableTo_Intersection_source_eq (types1 : list TypeInfo) (t2 : TypeInfo) :
  kind t2 <> KIntersection -> kind t2 <> KUnion ->
  isAssignableTo (Some (TIntersection types1)) (Some t2)
  = forallb (fun t => isAssignableTo (Some t) (Some t2)) types1.
Proof.
  intros Hi Hu. apply Done_inj. rewrite <- isAssignableTo_unfold.
  rewrite <- everyM_Done.
  destruct t2 as [| |[]|[]| |[]| | | | | | | | | | | | | | | | |];
    simpl in *; try congruence; reflexivity.
Qed.

(** The kinds differ, the source is no Optional, Nullable or Intersection
    and the target no Union: only Literal against Primitive is left. *)
Lemma isAssignableTo_rigid_eq (t1 t2 : TypeInfo) :
  kind t1 <> kind t2 ->
  is_wrapper (kind t1) = false -> kind t1 <> KIntersection ->
  kind t2 <> KUnion ->
  isAssignableTo (Some t1) (Some t2)
  = match t1, t2 with
    | TLiteral value, TPrimitive type => String.eqb (typeof value) type
    | _, _ => false
    end.
Proof.
  intros Hk Hw Hi Hu. apply Done_inj. rewrite <- isAssignableTo_unfold.
  simpl. rewrite (proj2 (Kind_eqb_neq _ _) Hk).
  destruct t1 as [| |[]|[]| |[]| | | | | | | | | | | | | | | | |];
    simpl in *; try discriminate Hw; try congruence;
    destruct t2 as [| |[]|[]| |[]| | | | | | | | | | | | | | | | |];
    simpl in *; try congruence; reflexivity.
Qed.

Lemma existsb_incl (A : Type) (f : A -> bool) (l l' : list A) :
  incl l l' -> existsb f l = true -> existsb f l' = true.
Proof.
  intros Hi H. apply existsb_exists in H. destruct H as [x [Hx Hf]].
  apply existsb_exists. exists x. split; [now apply Hi|exact Hf].
Qed.

Lemma wrapper_cases (s : TypeInfo) :
  is_wrapper (kind s) = true ->
  (exists inner, s = TOptional inner) \/ (exists inner, s = TNullable inner).
Proof.
  destruct s as [| |[]|[]| |[]| | | | | | | | | | | | | | | | |];
    simpl; intros H; try discriminate H; eauto.
Qed.

Lemma Union_cases (s : TypeInfo) :
  kind s = KUnion -> exists types, s = TUnion types.
Proof.
  destruct s as [| |[]|[]| |[]| | | | | | | | | | | | | | | | |];
    simpl; intros H; try discriminate H; eauto.
Qed.

Lemma isAssignableTo_empty_Union_upto (n : nat) :
  forall s, depth s <= n ->
    isAssignableTo (Some s) (Some (TUnion [])) = false.
Proof.
  induction n as [|n IH]; intros s Hd.
  { pose proof (depth_pos s). lia. }
  destruct (is_wrapper (kind s)) eqn:Hw.
  - destruct (wrapper_cases s Hw) as [[inner ->]|[inner ->]]; simpl in Hd.
    + rewrite isAssignableTo_Optional_eq by discriminate. apply IH. lia.
    + rewrite isAssignableTo_Nullable_eq by discriminate.
      rewrite IH by lia. reflexivity.
  - destruct (Kind_eq_dec (kind s) KUnion) as [Hu|Hu].
    + destruct (Union_cases s Hu) as [types ->].
      now rewrite isAssignableTo_Union_Union.
    + now rewrite isAssignableTo_Union_target_eq.
Qed.

Lemma isAssignableTo_Union_widen_upto (n : nat) :
  forall s types2 types2', depth s <= n -> incl types2 types2' ->
    isAssignableTo (Some s) (Some (TUnion types2)) = true ->
    isAssignableTo (Some s) (Some (TUnion types2')) = true.
Proof.
  induction n as [|n IH]; intros s types2 types2' Hd Hi H.
  { pose proof (depth_pos s). lia. }
  destruct (is_wrapper (kind s)) eqn:Hw.
  - destruct (wrapper_cases s Hw) as [[inner ->]|[inner ->]]; simpl in Hd.
    + rewrite isAssignableTo_Optional_eq in * by discriminate.
      apply (IH inner types2); auto; lia.
    + rewrite isAssignableTo_Nullable_eq in * by discriminate.
      apply orb_true_iff in H. apply orb_true_iff. destruct H as [H|H].
      * left. apply (IH inner types2); auto; lia.
      * right. eapply existsb_incl; eauto.
  - destruct (Kind_eq_dec (kind s) KUnion) as [Hu|Hu].
    + destruct (Union_cases s Hu) as [types ->].
      rewrite isAssignableTo_Union_Union in *. eapply existsb_incl; eauto.
    + rewrite isAssignableTo_Union_target_eq in * by auto.
      eapply existsb_incl; eauto.
Qed.

(** ** Absent arguments, leaves *)

(** X1: [isAssignableTo] answers false as soon as one of its two arguments
    is absent, whatever the other is. *)
Theorem isAssignableTo_absent (typeInfo : option TypeInfo) :
  isAssignableTo None typeInfo = false /\ isAssignableTo typeInfo None = false.
Proof.
  split; [apply isAssignableTo_absent_source|apply isAssignableTo_absent_target].
Qed.

(** X2: two Primitive nodes are assignable exactly when their tags are the
    same text; two Literal nodes exactly when their values are strictly
    equal: string and boolean literals when they are the same value, number
    literals under the floating-point [===], and literals of two different
    types never. *)
Theorem isAssignableTo_Primitive_Literal_strict :
  (forall type1 type2 : string,
      isAssignableTo (Some (TPrimitive type1)) (Some (TPrimitive type2)) = true
      <-> type1 = type2)
  /\ (forall s1 s2 : string,
      isAssignableTo (Some (TLiteral (LString s1))) (Some (TLiteral (LString s2))) = true
      <-> s1 = s2)
  /\ (forall b1 b2 : bool,
      isAssignableTo (Some (TLiteral (LBoolean b1))) (Some (TLiteral (LBoolean b2))) = true
      <-> b1 = b2)
  /\ (forall x y : number,
      isAssignableTo (Some (TLiteral (LNumber x))) (Some (TLiteral (LNumber y)))
      = SFeqb x y)
  /\ (forall v1 v2 : LiteralValue,
      typeof v1 <> typeof v2 ->
      isAssignableTo (Some (TLiteral v1)) (Some (TLiteral v2)) = false).
Proof.
  repeat split; intros.
  - rewrite isAssignableTo_Primitive_eq in H. now apply String.eqb_eq.
  - rewrite isAssignableTo_Primitive_eq. now apply String.eqb_eq.
  - rewrite isAssignableTo_Literal_eq in H. now apply String.eqb_eq.
  - rewrite isAssignableTo_Literal_eq. now apply String.eqb_eq.
  - rewrite isAssignableTo_Literal_eq in H. now apply Bool.eqb_prop.
  - rewrite isAssignableTo_Literal_eq. subst. apply Bool.eqb_reflx.
  - rewrite isAssignableTo_Literal_eq.
    destruct v1, v2; simpl in *; try reflexivity; congruence.
Qed.

(** ** Same-kind rules beside the claims *)

(** X3: for two Intersection nodes, [isAssignableTo(source, target)] is true
    if and only if every member of the target is matched by some member of
    the source. *)
Theorem isAssignableTo_Intersection_every_member (types1 types2 : list TypeInfo) :
  isAssignableTo (Some (TIntersection types1)) (Some (TIntersection types2)) = true
  <-> forall t, In t types2 ->
        exists s, In s types1 /\ isAssignableTo (Some s) (Some t) = true.
Proof.
  rewrite isAssignableTo_Intersection_Intersection, forallb_forall.
  split; intros H t Ht; specialize (H t Ht); now apply existsb_exists.
Qed.

(** X4: for two Tuple nodes, [isAssignableTo(source, target)] is true if and
    only if the two element lists have the same length and the source
    element is assignable to the target element at every position. *)
Theorem isAssignableTo_Tuple_elementwise (elements1 elements2 : list TypeInfo) :
  isAssignableTo (Some (TTuple elements1)) (Some (TTuple elements2)) = true
  <-> length elements1 = length elements2
      /\ forall i e1 e2,
           nth_error elements1 i = Some e1 -> nth_error elements2 i = Some e2 ->
           isAssignableTo (Some e1) (Some e2) = true.
Proof.
  rewrite isAssignableTo_Tuple_Tuple, andb_true_iff, js_length_eqb,
    everyi_from_true.
  split; intros [Hl H]; (split; [exact Hl|]).
  - intros i e1 e2 H1 H2. specialize (H i e1 H1). simpl in H.
    rewrite at_index_of_nat, H2 in H. exact H.
  - intros j x Hx. simpl. rewrite at_index_of_nat.
    destruct (nth_error elements2 j) as [e2|] eqn:E2.
    + eapply H; eauto.
    + apply nth_error_None in E2.
      assert (nth_error elements1 j <> None) as Hn by congruence.
      apply nth_error_Some in Hn. lia.
Qed.

(** X5: containers of one kind are covariant.  Array, ReadonlyArray, Set,
    Promise and PromiseLike against the same kind compare their [inner]
    nodes; Map and Record against the same kind compare key with key and
    value with value, both of which must be assignable. *)
Theorem isAssignableTo_containers_covariant :
  (forall (k : CollectionKind) (inner1 inner2 : TypeInfo),
      isAssignableTo (Some (TCollection k inner1)) (Some (TCollection k inner2))
      = isAssignableTo (Some inner1) (Some inner2))
  /\ (forall (k : DeferredKind) (inner1 inner2 : TypeInfo),
      isAssignableTo (Some (TDeferred k inner1)) (Some (TDeferred k inner2))
      = isAssignableTo (Some inner1) (Some inner2))
  /\ (forall (k : KeyedKind) (key1 value1 key2 value2 : TypeInfo),
      isAssignableTo (Some (TKeyed k key1 value1)) (Some (TKeyed k key2 value2)) = true
      <-> isAssignableTo (Some key1) (Some key2) = true
          /\ isAssignableTo (Some value1) (Some value2) = true).
Proof.
  repeat split; intros.
  - apply isAssignableTo_Collection_eq.
  - apply isAssignableTo_Deferred_eq.
  - rewrite isAssignableTo_Keyed_eq in H. now apply andb_true_iff in H.
  - rewrite isAssignableTo_Keyed_eq in H. now apply andb_true_iff in H.
  - destruct H as [Hk Hv]. rewrite isAssignableTo_Keyed_eq, Hk, Hv. reflexivity.
Qed.

(** X6: two nodes of the same kind are always assignable when that kind is
    Simple, Observable, Optional, Nullable, Class, Interface, Generic, Enum,
    IndexSignature, Conditional, Mapped, TemplateLiteral or unknown: names,
    inner nodes and members are not looked at. *)
Theorem isAssignableTo_same_kind_default (t1 t2 : TypeInfo) :
  kind t1 = kind t2 -> default_kind (kind t1) = true ->
  isAssignableTo (Some t1) (Some t2) = true.
Proof. apply isAssignableTo_default_eq. Qed.

(** X6 at a concrete input: [Observable<string>] against
    [Observable<number>]. *)
Lemma isAssignableTo_same_kind_default_witness :
  kind (TObservable (TPrimitive "string")) = kind (TObservable (TPrimitive "number"))
  /\ default_kind (kind (TObservable (TPrimitive "string"))) = true
  /\ isAssignableTo (Some (TObservable (TPrimitive "string")))
                    (Some (TObservable (TPrimitive "number"))) = true.
Proof.
  split; [reflexivity|]. split; [reflexivity|].
  apply isAssignableTo_same_kind_default; reflexivity.
Defined.

(** ** Cross-kind rules *)

(** X7: when the two kinds differ, the source is no Optional, Nullable or
    Intersection and the target is no Union, [isAssignableTo] is true only
    for a Literal source against a Primitive target whose tag is the
    [typeof] of the literal's value; every other such pair is rejected. *)
Theorem isAssignableTo_kind_mismatch (t1 t2 : TypeInfo) :
  kind t1 <> kind t2 ->
  is_wrapper (kind t1) = false -> kind t1 <> KIntersection ->
  kind t2 <> KUnion ->
  (isAssignableTo (Some t1) (Some t2) = true <->
   exists value type,
     t1 = TLiteral value /\ t2 = TPrimitive type /\ typeof value = type).
Proof.
  intros Hk Hw Hi Hu. rewrite isAssignableTo_rigid_eq by assumption.
  split.
  - destruct t1; try discriminate. destruct t2; try discriminate.
    intros H. apply String.eqb_eq in H. eauto.
  - intros [value [type [-> [-> H]]]]. now apply String.eqb_eq.
Qed.

(** X7 at a concrete input: the literal [true] against the [boolean]
    primitive. *)
Lemma isAssignableTo_kind_mismatch_witness :
  kind (TLiteral (LBoolean true)) <> kind (TPrimitive "boolean")
  /\ isAssignableTo (Some (TLiteral (LBoolean true))) (Some (TPrimitive "boolean")) = true.
Proof.
  split; [discriminate|].
  apply (proj2 (isAssignableTo_kind_mismatch (TLiteral (LBoolean true))
                  (TPrimitive "boolean") ltac:(discriminate) eq_refl
                  ltac:(discriminate) ltac:(discriminate))).
  exists (LBoolean true), "boolean". repeat split.
Defined.

(** X8: containers of two different kinds are never assignable, whatever
    they contain: Array, ReadonlyArray and Set among themselves, Promise
    against PromiseLike, Map against Record.  The three covariance checks
    after the same-kind switch add nothing to it. *)
Theorem isAssignableTo_container_kinds_apart :
  (forall (k1 k2 : CollectionKind) (inner1 inner2 : TypeInfo),
      k1 <> k2 ->
      isAssignableTo (Some (TCollection k1 inner1)) (Some (TCollection k2 inner2))
      = false)
  /\ (forall (k1 k2 : DeferredKind) (inner1 inner2 : TypeInfo),
      k1 <> k2 ->
      isAssignableTo (Some (TDeferred k1 inner1)) (Some (TDeferred k2 inner2))
      = false)
  /\ (forall (k1 k2 : KeyedKind) (key1 value1 key2 value2 : TypeInfo),
      k1 <> k2 ->
      isAssignableTo (Some (TKeyed k1 key1 value1)) (Some (TKeyed k2 key2 value2))
      = false).
Proof.
  repeat split; intros; rewrite isAssignableTo_rigid_eq;
    try reflexivity; destruct k1, k2; simpl; congruence.
Qed.

(** X8 at a concrete input: [Array<string>] against
    [ReadonlyArray<string>]. *)
Lemma isAssignableTo_container_kinds_apart_witness :
  CArray <> CReadonlyArray
  /\ isAssignableTo (Some (TCollection CArray (TPrimitive "string")))
                    (Some (TCollection CReadonlyArray (TPrimitive "string"))) = false.
Proof.
  split; [discriminate|].
  apply (proj1 isAssignableTo_container_kinds_apart). discriminate.
Defined.

(** X9: nothing is assignable to a Union without members: for every source
    node, also an Optional or Nullable one and also a Union,
    [isAssignableTo(source, Union [])] is false. *)
Theorem isAssignableTo_empty_Union (source : TypeInfo) :
  isAssignableTo (Some source) (Some (TUnion [])) = false.
Proof. apply (isAssignableTo_empty_Union_upto (depth source)). lia. Qed.

(** X10: a source that is no Union, Optional or Nullable is assignable to a
    Union exactly when it is assignable to one of the members. *)
Theorem isAssignableTo_Union_introduction (t1 : TypeInfo) (types2 : list TypeInfo) :
  kind t1 <> KUnion -> is_wrapper (kind t1) = false ->
  (isAssignableTo (Some t1) (Some (TUnion types2)) = true <->
   exists t, In t types2 /\ isAssignableTo (Some t1) (Some t) = true).
Proof.
  intros Hu Hw. rewrite isAssignableTo_Union_target_eq by assumption.
  apply existsb_exists.
Qed.

(** X10 at a concrete input: [string] against the Union of [number] and
    [string]. *)
Lemma isAssignableTo_Union_introduction_witness :
  kind (TPrimitive "string") <> KUnion
  /\ is_wrapper (kind (TPrimitive "string")) = false
  /\ isAssignableTo (Some (TPrimitive "string"))
       (Some (TUnion [TPrimitive "number"; TPrimitive "string"])) = true.
Proof.
  split; [discriminate|]. split; [reflexivity|].
  apply (proj2 (isAssignableTo_Union_introduction (TPrimitive "string")
                  [TPrimitive "number"; TPrimitive "string"]
                  ltac:(discriminate) eq_refl)).
  exists (TPrimitive "string"). split; [right; now left|reflexivity].
Defined.

(** X11: adding members to a target Union never loses assignability: a
    source of any kind that is assignable to a Union is assignable to every
    Union that has all the members of the first. *)
Theorem isAssignableTo_Union_widening
  (source : TypeInfo) (types2 types2' : list TypeInfo) :
  incl types2 types2' ->
  isAssignableTo (Some source) (Some (TUnion types2)) = true ->
  isAssignableTo (Some source) (Some (TUnion types2')) = true.
Proof. apply (isAssignableTo_Union_widen_upto (depth source)). lia. Qed.

(** X11 at a concrete input: [Optional<string>], assignable to the Union of
    [string], stays assignable when [number] is added. *)
Lemma isAssignableTo_Union_widening_witness :
  incl [TPrimitive "string"] [TPrimitive "number"; TPrimitive "string"]
  /\ isAssignableTo (Some (TOptional (TPrimitive "string")))
       (Some (TUnion [TPrimitive "string"])) = true
  /\ isAssignableTo (Some (TOptional (TPrimitive "string")))
       (Some (TUnion [TPrimitive "number"; TPrimitive "string"])) = true.
Proof.
  assert (Hi : incl [TPrimitive "string"]
                    [TPrimitive "number"; TPrimitive "string"]).
  { intros x [<-|[]]. right; now left. }
  split; [exact Hi|]. split; [reflexivity|].
  apply (isAssignableTo_Union_widening (TOptional (TPrimitive "string"))
           [TPrimitive "string"] _ Hi).
  reflexivity.
Defined.

(** X12: wrapping the source in Optional or in Nullable never loses
    assignability: when [inner] is assignable to a target, so are
    [Optional<inner>] and [Nullable<inner>]. *)
Theorem isAssignableTo_wrapped_source (inner t2 : TypeInfo) :
  isAssignableTo (Some inner) (Some t2) = true ->
  isAssignableTo (Some (TOptional inner)) (Some t2) = true
  /\ isAssignableTo (Some (TNullable inner)) (Some t2) = true.
Proof.
  intros H. split.
  - destruct (Kind_eq_dec (kind t2) KOptional) as [E|E].
    + apply isAssignableTo_default_eq; [now rewrite E|reflexivity].
    + now rewrite isAssignableTo_Optional_eq.
  - destruct (Kind_eq_dec (kind t2) KNullable) as [E|E].
    + apply isAssignableTo_default_eq; [now rewrite E|reflexivity].
    + rewrite isAssignableTo_Nullable_eq by assumption. now rewrite H.
Qed.

(** X12 at a concrete input: the literal ["a"] is assignable to [string]. *)
Lemma isAssignableTo_wrapped_source_witness :
  isAssignableTo (Some (TLiteral (LString "a"))) (Some (TPrimitive "string")) = true
  /\ isAssignableTo (Some (TOptional (TLiteral (LString "a"))))
                    (Some (TPrimitive "string")) = true
  /\ isAssignableTo (Some (TNullable (TLiteral (LString "a"))))
                    (Some (TPrimitive "string")) = true.
Proof.
  split; [reflexivity|].
  apply isAssignableTo_wrapped_source. reflexivity.
Defined.

(** X13: a Nullable source is assignable to every Union that has a Primitive
    member tagged [null], whatever the Nullable wraps and whatever the other
    members are. *)
Theorem isAssignableTo_Nullable_null_Union (inner : TypeInfo) (types2 : list TypeInfo) :
  In (TPrimitive "null") types2 ->
  isAssignableTo (Some (TNullable inner)) (Some (TUnion types2)) = true.
Proof.
  intros Ht. rewrite isAssignableTo_Nullable_eq by discriminate.
  apply orb_true_iff. right. apply existsb_exists.
  exists (TPrimitive "null"). split; [exact Ht|reflexivity].
Qed.

(** X13 at a concrete input: [Nullable<Object {}>] against the Union of
    [string] and [null]. *)
Lemma isAssignableTo_Nullable_null_Union_witness :
  isAssignableTo (Some (TNullable (TObject [])))
                 (Some (TUnion [TPrimitive "string"; TPrimitive "null"])) = true.
Proof.
  apply isAssignableTo_Nullable_null_Union. right; now left.
Defined.

(** X14: a node [t] that is no Union, Optional or Nullable, whose Union and
    Intersection member lists are all non-empty and which has no [NaN]
    literal, is assignable to every Union that has [t] among its members. *)
Theorem isAssignableTo_member_of_Union (t : TypeInfo) (types2 : list TypeInfo) :
  kind t <> KUnion -> is_wrapper (kind t) = false ->
  all_nodes members_nonempty t = true ->
  all_nodes not_NaN_literal t = true ->
  In t types2 ->
  isAssignableTo (Some t) (Some (TUnion types2)) = true.
Proof.
  intros Hu Hw Hm Hn Hin. rewrite isAssignableTo_Union_target_eq by assumption.
  apply existsb_exists. exists t. split; [exact Hin|].
  apply (isAssignableTo_reflexive_upto (depth t)); auto.
Qed.

(** X14 at a concrete input: [Array<string>] in the Union of [number] and
    [Array<string>]. *)
Lemma isAssignableTo_member_of_Union_witness :
  In (TCollection CArray (TPrimitive "string"))
     [TPrimitive "number"; TCollection CArray (TPrimitive "string")]
  /\ isAssignableTo (Some (TCollection CArray (TPrimitive "string")))
       (Some (TUnion [TPrimitive "number";
                      TCollection CArray (TPrimitive "string")])) = true.
Proof.
  assert (Hin : In (TCollection CArray (TPrimitive "string"))
                   [TPrimitive "number"; TCollection CArray (TPrimitive "string")]).
  { right; now left. }
  split; [exact Hin|].
  apply isAssignableTo_member_of_Union;
    [discriminate|reflexivity|reflexivity|reflexivity|exact Hin].
Defined.

(** X15: an Intersection source against a target that is neither an
    Intersection nor a Union is assignable exactly when every one of its
    members is assignable to the target; the Intersection without members
    is therefore assignable to every such target. *)
Theorem isAssignableTo_Intersection_source (types1 : list TypeInfo) (t2 : TypeInfo) :
  kind t2 <> KIntersection -> kind t2 <> KUnion ->
  (isAssignableTo (Some (TIntersection types1)) (Some t2) = true <->
   forall t, In t types1 -> isAssignableTo (Some t) (Some t2) = true)
  /\ isAssignableTo (Some (TIntersection [])) (Some t2) = true.
Proof.
  intros Hi Hu. rewrite !isAssignableTo_Intersection_source_eq by assumption.
  split; [apply forallb_forall|reflexivity].
Qed.

(** X15 at a concrete input: the Intersection of two string literals
    against [string]. *)
Lemma isAssignableTo_Intersection_source_witness :
  kind (TPrimitive "string") <> KIntersection
  /\ kind (TPrimitive "string") <> KUnion
  /\ isAssignableTo
       (Some (TIntersection [TLiteral (LString "a"); TLiteral (LString "b")]))
       (Some (TPrimitive "string")) = true.
Proof.
  split; [discriminate|]. split; [discriminate|].
  apply (proj1 (isAssignableTo_Intersection_source
                  [TLiteral (LString "a"); TLiteral (LString "b")]
                  (TPrimitive "string") ltac:(discriminate) ltac:(discriminate))).
  intros t [<-|[<-|[]]]; reflexivity.
Defined.

(** * Further properties of [resolveDeepestType] and the unwraps *)

(** One call of [resolveDeepestType] on a node that hands on to [next]. *)
Ltac resolve_one_call :=
  apply Done_inj; rewrite resolveDeepestType_unfold;
  match goal with
  | |- resolveDeepestTypeF (S (depth ?t)) _ = _ =>
      let calls := fresh "calls" in
      let Ec := fresh "Ec" in
      remember (depth t) as calls eqn:Ec; simpl;
      apply resolveDeepestTypeF_Done; subst calls; simpl
  end.

Lemma resolveDeepestType_inner (t : TypeInfo) (inner : TypeInfo) :
  get_inner t = Some inner ->
  resolveDeepestType (Some t) = resolveDeepestType (Some inner).
Proof.
  intros H. destruct t; try discriminate H; injection H as ->;
    resolve_one_call; lia.
Qed.

Lemma resolveDeepestType_Function (parameters : list TypeInfo) (returnType : TypeInfo) :
  resolveDeepestType (Some (TFunction parameters returnType))
  = resolveDeepestType (Some returnType).
Proof. resolve_one_call. lia. Qed.

(** X16: the single-step unwraps do not change the deep resolution:
    [resolveDeepestType] gives the same result after [getAwaitedType],
    [getItemType] or [getSubscribeType] as on the input itself, absent input
    included, and on a Function node the same as on its
    [getFunctionReturnType]. *)
Theorem resolveDeepestType_after_unwrap (typeInfo : option TypeInfo) :
  resolveDeepestType (getAwaitedType typeInfo) = resolveDeepestType typeInfo
  /\ resolveDeepestType (getItemType typeInfo) = resolveDeepestType typeInfo
  /\ resolveDeepestType (getSubscribeType typeInfo) = resolveDeepestType typeInfo
  /\ (isFunction typeInfo = true ->
      resolveDeepestType (getFunctionReturnType typeInfo)
      = resolveDeepestType typeInfo).
Proof.
  destruct typeInfo as [t|]; [|repeat split; discriminate].
  repeat split;
    destruct t as [| |[]|[]| |[]| | | | | | | | | | | | | | | | |];
    simpl; try reflexivity; try discriminate;
    intros; symmetry;
    first [apply resolveDeepestType_inner; reflexivity
          |apply resolveDeepestType_Function].
Qed.

(** X16 at a concrete input: a Function that returns [Promise<string>]. *)
Lemma resolveDeepestType_after_unwrap_witness :
  isFunction (Some (TFunction [] (TDeferred DPromise (TPrimitive "string")))) = true
  /\ resolveDeepestType
       (getFunctionReturnType
          (Some (TFunction [] (TDeferred DPromise (TPrimitive "string")))))
     = resolveDeepestType
         (Some (TFunction [] (TDeferred DPromise (TPrimitive "string")))).
Proof.
  split; [reflexivity|].
  apply (proj2 (proj2 (proj2 (resolveDeepestType_after_unwrap
           (Some (TFunction [] (TDeferred DPromise (TPrimitive "string")))))))).
  reflexivity.
Defined.

Lemma resolveDeepestTypeF_occurs (n : nat) :
  forall t r, resolveDeepestTypeF n (Some t) = Done (Some r) -> occurs_in r t.
Proof.
  induction n as [|n IH]; intros t r H; [discriminate H|].
  assert (IHo : forall (l : list TypeInfo) (o : option TypeInfo),
             (forall c, o = Some c -> In c l) ->
             resolveDeepestTypeF n o = Done (Some r) ->
             exists c, In c l /\ occurs_in r c).
  { intros l [c|] Hin Ho.
    - exists c. split; [now apply Hin|now apply IH].
    - destruct n; discriminate Ho. }
  assert (Hat : forall (l : list TypeInfo) i c, at_index l i = Some c -> In c l).
  { intros l i c. apply at_index_In. }
  destruct t; simpl in H;
    try (injection H as <-; apply occurs_here);
    try (eapply occurs_below; [|apply IH; exact H]; simpl; now auto).
  - (* Union *)
    destruct (find _ types) as [x|] eqn:E.
    + eapply occurs_below; [|apply IH; exact H]. simpl. eapply find_In; eauto.
    + injection H as H. eapply occurs_below; [|apply occurs_here].
      simpl. eapply at_index_In; eauto.
  - (* Intersection *)
    destruct (IHo types _ (Hat types _) H) as [c [Hc Ho]].
    eapply occurs_below; eauto.
  - (* Function *)
    eapply occurs_below; [|apply IH; exact H]. simpl.
    apply in_or_app. right. now left.
  - (* Generic *)
    destruct (IHo typeParameters _ (Hat typeParameters _) H) as [c [Hc Ho]].
    eapply occurs_below; eauto.
  - (* Tuple *)
    destruct (IHo elements _ (Hat elements _) H) as [c [Hc Ho]].
    eapply occurs_below; eauto.
  - (* TemplateLiteral *)
    destruct (IHo types _ (Hat types _) H) as [c [Hc Ho]].
    eapply occurs_below; eauto.
Qed.

Lemma occurs_in_depth (r t : TypeInfo) : occurs_in r t -> depth r <= depth t.
Proof.
  induction 1 as [|t c Hc _ IH]; [lia|].
  assert (depth c < depth t); [|lia].
  destruct t; simpl in Hc |- *;
    repeat match goal with
      | H : _ \/ _ |- _ => destruct H
      | H : False |- _ => contradiction
      | H : In _ (_ ++ _) |- _ => apply in_app_or in H
      | H : In _ (map snd _) |- _ =>
          apply in_map_iff in H; destruct H as [[? ?] [? H]]; simpl in *; subst;
          apply (list_max_In _ (fun kv => depth (snd kv))) in H; simpl in H
      | H : In c ?l |- _ => apply (list_max_In _ depth l c) in H
      end; subst; simpl in *; lia.
Qed.

(** X17: [resolveDeepestType] makes no node: whenever it returns a node, that
    node is a node of the input tree, the input itself or one below it, and
    so it is no deeper than the input. *)
Theorem resolveDeepestType_returns_subtree (t r : TypeInfo) :
  resolveDeepestType (Some t) = Some r ->
  occurs_in r t /\ depth r <= depth t.
Proof.
  intros H.
  assert (Ho : occurs_in r t).
  { apply (resolveDeepestTypeF_occurs (S (depth t))).
    rewrite resolveDeepestTypeF_Done by (simpl; lia). now rewrite H. }
  split; [exact Ho|now apply occurs_in_depth].
Qed.

(** X17 at a concrete input: [Array<Promise<number>>] resolves to its
    [number] leaf. *)
Lemma resolveDeepestType_returns_subtree_witness :
  resolveDeepestType
    (Some (TCollection CArray (TDeferred DPromise (TPrimitive "number"))))
  = Some (TPrimitive "number")
  /\ occurs_in (TPrimitive "number")
       (TCollection CArray (TDeferred DPromise (TPrimitive "number")))
  /\ depth (TPrimitive "number")
     <= depth (TCollection CArray (TDeferred DPromise (TPrimitive "number"))).
Proof.
  split; [reflexivity|].
  apply resolveDeepestType_returns_subtree. reflexivity.
Defined.

Lemma all_nodes_list (P : TypeInfo -> bool) (l : list TypeInfo) (x : TypeInfo) :
  forallb (all_nodes P) l = true -> In x l -> all_nodes P x = true.
Proof. intros H Hx. exact (proj1 (forallb_forall _ l) H x Hx). Qed.

Lemma at_index_0_nonempty (A : Type) (l : list A) :
  l <> [] -> exists x, at_index l 0 = Some x.
Proof. destruct l as [|x l]; [congruence|]. intros _. now exists x. Qed.

Lemma at_index_last_nonempty (A : Type) (l : list A) :
  l <> [] -> exists x, at_index l (js_length l - 1) = Some x.
Proof.
  intros H. unfold at_index, js_length.
  destruct (Z.ltb_spec (Z.of_nat (length l) - 1) 0) as [Hlt|Hge].
  - destruct l; [congruence|]. simpl length in Hlt. lia.
  - destruct (nth_error l (Z.to_nat (Z.of_nat (length l) - 1))) as [x|] eqn:E;
      [now exists x|].
    apply nth_error_None in E. destruct l; [congruence|]. simpl length in *. lia.
Qed.

Lemma resolveDeepestTypeF_present (n : nat) :
  forall t, depth t < n -> all_nodes lists_nonempty t = true ->
    exists r, resolveDeepestTypeF n (Some t) = Done (Some r).
Proof.
  induction n as [|n IH]; intros t Hd Hw; [lia|].
  assert (IHl : forall (l : list TypeInfo) (o : option TypeInfo),
             (exists x, o = Some x) -> (forall x, o = Some x -> In x l) ->
             list_max (map depth l) < n ->
             forallb (all_nodes lists_nonempty) l = true ->
             exists r, resolveDeepestTypeF n o = Done (Some r)).
  { intros l o [x ->] Hin Hl Hf. specialize (Hin x eq_refl). apply IH.
    - pose proof (list_max_In _ depth l x Hin). lia.
    - eapply all_nodes_list; eauto. }
  destruct t; simpl in Hd, Hw |- *;
    repeat match goal with
      | H : _ && _ = true |- _ => apply andb_true_iff in H; destruct H
      end;
    try (eexists; reflexivity);
    try (apply IH; [lia|assumption]).
  - (* Union *)
    destruct types as [|x types]; [discriminate|].
    destruct (find _ (x :: types)) as [y|] eqn:E.
    + apply find_In in E. apply IH.
      * pose proof (list_max_In _ depth _ y E). lia.
      * eapply all_nodes_list; eauto.
    + now exists x.
  - (* Intersection *)
    destruct types as [|x types]; [discriminate|].
    apply (IHl (x :: types)); auto; [|intros y; apply at_index_In|lia].
    apply at_index_last_nonempty. discriminate.
  - (* Generic *)
    destruct typeParameters as [|x l]; [discriminate|].
    apply (IHl (x :: l)); auto; [|intros y; apply at_index_In|lia].
    now exists x.
  - (* Tuple *)
    destruct elements as [|x l]; [discriminate|].
    apply (IHl (x :: l)); auto; [|intros y; apply at_index_In|lia].
    now exists x.
  - (* TemplateLiteral *)
    destruct types as [|x l]; [discriminate|].
    apply (IHl (x :: l)); auto; [|intros y; apply at_index_In|lia].
    now exists x.
Qed.

(** X18: on a tree in which no Union, Intersection, Generic, Tuple or
    TemplateLiteral has an empty list, [resolveDeepestType] returns a node:
    the absent result only comes from reading an empty list. *)
Theorem resolveDeepestType_present (t : TypeInfo) :
  all_nodes lists_nonempty t = true ->
  exists r, resolveDeepestType (Some t) = Some r.
Proof.
  intros Hw.
  destruct (resolveDeepestTypeF_present (S (depth t)) t) as [r Hr]; [lia|exact Hw|].
  exists r. apply Done_inj. rewrite resolveDeepestType_unfold. congruence.
Qed.

(** X18 at a concrete input: a Tuple of one Generic with one parameter. *)
Lemma resolveDeepestType_present_witness :
  all_nodes lists_nonempty (TTuple [TGeneric "Box" [TPrimitive "string"]]) = true
  /\ exists r,
       resolveDeepestType (Some (TTuple [TGeneric "Box" [TPrimitive "string"]]))
       = Some r.
Proof.
  split; [reflexivity|].
  apply resolveDeepestType_present. reflexivity.
Defined.

(** ** The single-step unwraps *)

Lemma get_inner_neq (t inner : TypeInfo) : get_inner t = Some inner -> inner <> t.
Proof.
  intros H E. pose proof (get_inner_depth t) as Hd. rewrite H in Hd.
  simpl in Hd. subst. lia.
Qed.

(** X19: each single-step unwrap returns a node for a node, and returns the
    input itself exactly when its predicate is false: [getAwaitedType] when
    [isPromise] is false, [getItemType] when neither [isArray] nor [isSet]
    holds, [getSubscribeType] when [isObservable] is false; otherwise it
    returns the [inner] child. *)
Theorem unwraps_follow_predicates (t : TypeInfo) :
  (getAwaitedType (Some t) = Some t <-> isPromise (Some t) = false)
  /\ (getItemType (Some t) = Some t
      <-> isArray (Some t) = false /\ isSet (Some t) = false)
  /\ (getSubscribeType (Some t) = Some t <-> isObservable (Some t) = false)
  /\ (exists r, getAwaitedType (Some t) = Some r
                /\ (isPromise (Some t) = true -> get_inner t = Some r))
  /\ (exists r, getItemType (Some t) = Some r
                /\ (isArray (Some t) || isSet (Some t) = true -> get_inner t = Some r))
  /\ (exists r, getSubscribeType (Some t) = Some r
                /\ (isObservable (Some t) = true -> get_inner t = Some r)).
Proof.
  assert (Hn : forall inner, get_inner t = Some inner -> Some inner <> Some t).
  { intros inner H E. injection E as E. exact (get_inner_neq t inner H E). }
  destruct t as [| |[]|[]| |[]| | | | | | | | | | | | | | | | |];
    repeat split; simpl; intros;
    try reflexivity; try discriminate; try tauto;
    try (exfalso; eapply Hn; [reflexivity|eassumption]);
    try (eexists; split; [reflexivity|intros; try reflexivity; discriminate]);
    try (destruct H; discriminate).
Qed.

(** ** Extractors and property access *)

(** X20: an extractor only answers on its own kind.  Off the kind (and on
    absent input) the list and map extractors return their empty form, also
    when the node has a field of that name ([getUnionTypes] on an
    Intersection, [getObjectProperties] on a Class); on the kind they return
    the field.  [getFunctionReturnType] and [getLiteralValue] return a value
    exactly on Function and Literal nodes. *)
Theorem extractors_follow_kind (typeInfo : option TypeInfo) :
  (getFunctionReturnType typeInfo <> None <-> isFunction typeInfo = true)
  /\ (getLiteralValue typeInfo <> None <-> isLiteral typeInfo = true)
  /\ (if isUnion typeInfo
      then exists t, typeInfo = Some t /\ get_types t = Some (getUnionTypes typeInfo)
      else getUnionTypes typeInfo = [])
  /\ (if isIntersection typeInfo
      then exists t, typeInfo = Some t
                     /\ get_types t = Some (getIntersectionTypes typeInfo)
      else getIntersectionTypes typeInfo = [])
  /\ (if isFunction typeInfo
      then exists t, typeInfo = Some t
                     /\ get_parameters t = Some (getFunctionParameters typeInfo)
      else getFunctionParameters typeInfo = [])
  /\ (if isTuple typeInfo
      then exists t, typeInfo = Some t
                     /\ get_elements t = Some (getTupleElements typeInfo)
      else getTupleElements typeInfo = [])
  /\ (if isObject typeInfo
      then exists t, typeInfo = Some t
                     /\ get_properties t = Some (getObjectProperties typeInfo)
      else getObjectProperties typeInfo = [])
  /\ (if isGeneric typeInfo
      then exists t, typeInfo = Some t
                     /\ get_typeParameters t = Some (getGenericTypeParameters typeInfo)
      else getGenericTypeParameters typeInfo = [])
  /\ (if isEnum typeInfo
      then exists t, typeInfo = Some t /\ get_values t = Some (getEnumValues typeInfo)
      else getEnumValues typeInfo = []).
Proof.
  destruct typeInfo as [t|].
  - destruct t as [| |[]|[]| |[]| | | | | | | | | | | | | | | | |];
      repeat split; simpl; intros;
      try reflexivity; try discriminate; try congruence;
      try (eexists; split; reflexivity).
  - repeat split; simpl; intros; try reflexivity; try discriminate; congruence.
Qed.

Lemma own_key_get_property (T : Type) (o : Record_ T) (key : string) :
  existsb (String.eqb key) (Object_keys o) = true
  <-> exists v, get_property o key = Some v.
Proof.
  induction o as [|[k w] o IH]; simpl.
  - split; [discriminate|]. intros [v H]. discriminate H.
  - rewrite (String.eqb_sym key k). destruct (String.eqb k key); simpl.
    + split; [intros _; now exists w|reflexivity].
    + exact IH.
Qed.

Section PropertyAccessFacts.
Variable Object_prototype_has : string -> bool.

Lemma js_in_read_property (T : Type) (o : Record_ T) (key : string) :
  (js_in Object_prototype_has key o = false
   <-> read_property Object_prototype_has o key = Undefined)
  /\ (Object_prototype_has key = false ->
      (js_in Object_prototype_has key o = true
       <-> exists v, read_property Object_prototype_has o key = OwnProperty v
                     /\ In (key, v) o)).
Proof.
  unfold js_in, read_property.
  pose proof (own_key_get_property T o key) as Hk.
  destruct (get_property o key) as [v|] eqn:E.
  - assert (existsb (String.eqb key) (Object_keys o) = true) as ->
        by (apply Hk; now exists v).
    simpl. split; [split; discriminate|]. intros _.
    split; [|reflexivity]. intros _. exists v. split; [reflexivity|].
    now apply get_property_In.
  - assert (existsb (String.eqb key) (Object_keys o) = false) as ->.
    { apply not_true_is_false. intros H. apply Hk in H.
      destruct H as [v H]. discriminate H. }
    simpl. destruct (Object_prototype_has key).
    + split; [split; discriminate|discriminate].
    + split; [split; reflexivity|]. intros _.
      split; [discriminate|]. intros [v [H _]]. discriminate H.
Qed.
End PropertyAccessFacts.

(** X21: [hasProperty] and [getPropertyType] agree, on Object, Class and
    Interface nodes alike: [hasProperty] is false exactly when
    [getPropertyType] gives [undefined], which is always the case on absent
    input and on every other kind; and for a name that [Object.prototype]
    does not have, [hasProperty] is true exactly when [getPropertyType]
    returns the node stored under that name in the property map. *)
Theorem hasProperty_getPropertyType
  (Object_prototype_has : string -> bool)
  (typeInfo : option TypeInfo) (propertyName : string) :
  (hasProperty Object_prototype_has typeInfo propertyName = false
   <-> getPropertyType Object_prototype_has typeInfo propertyName = Undefined)
  /\ (Object_prototype_has propertyName = false ->
      (hasProperty Object_prototype_has typeInfo propertyName = true
       <-> exists t properties node,
             typeInfo = Some t
             /\ get_properties t = Some properties
             /\ getPropertyType Object_prototype_has typeInfo propertyName
                = OwnProperty node
             /\ In (propertyName, node) properties)).
Proof.
  destruct typeInfo as [t|].
  - destruct t; simpl;
      try (split; [split; reflexivity|];
           intros _; split; [discriminate|];
           intros [t' [ps [node [_ [_ [H _]]]]]]; discriminate H);
      destruct (js_in_read_property Object_prototype_has TypeInfo
                  properties propertyName) as [H1 H2];
      (split; [exact H1|]); intros Hp; specialize (H2 Hp);
      (split;
       [intros H; apply H2 in H; destruct H as [v [Hv Hin]];
        eexists; exists properties, v; repeat split; auto
       |intros [t' [ps [node [Ht [Hps [Hr Hin]]]]]]; apply H2;
        injection Ht as <-; injection Hps as <-; eauto]).
  - simpl. split; [split; reflexivity|]. intros _. split; [discriminate|].
    intros [t [ps [node [H _]]]]. discriminate H.
Qed.

(** X21 at a concrete input: [id] in [Object {id: number}], with
    [toString] the only name on the prototype. *)
Lemma hasProperty_getPropertyType_witness :
  String.eqb "toString" "id" = false
  /\ hasProperty (String.eqb "toString")
       (Some (TObject [("id", TPrimitive "number")])) "id" = true
  /\ exists t properties node,
       Some (TObject [("id", TPrimitive "number")]) = Some t
       /\ get_properties t = Some properties
       /\ getPropertyType (String.eqb "toString")
            (Some (TObject [("id", TPrimitive "number")])) "id"
          = OwnProperty node
       /\ In ("id", node) properties.
Proof.
  split; [reflexivity|]. split; [reflexivity|].
  apply (proj2 (hasProperty_getPropertyType (String.eqb "toString")
                  (Some (TObject [("id", TPrimitive "number")])) "id") eq_refl).
  reflexivity.
Defined.

(** * The formatters *)

Section PrintTypePathFacts.
Variable Number_toString : number -> string.

Lemma path_step_depth (t : TypeInfo) :
  depthO (snd (path_step Number_toString t)) < depth t.
Proof.
  destruct t; simpl; try lia;
    match goal with
    | |- depthO (at_index ?l ?i) < _ => pose proof (at_index_depth l i); lia
    end.
Qed.

(** The loop adds to [path] what it would put on an empty one. *)
Lemma printTypePath_while_app (turns : nat) :
  forall (path : list string) (current : option TypeInfo),
    printTypePath_while Number_toString turns path current
    = (p <- printTypePath_while Number_toString turns [] current ;;
       Done (path ++ p)%list).
Proof.
  induction turns as [|turns IH]; intros path [c|]; simpl;
    try reflexivity; try (now rewrite app_nil_r).
  rewrite IH. rewrite (IH [fst (path_step Number_toString c)]).
  destruct (printTypePath_while Number_toString turns []
              (snd (path_step Number_toString c))) as [|p]; simpl;
    [reflexivity|].
  now rewrite <- app_assoc.
Qed.

Lemma printTypePath_while_stable (n : nat) :
  forall m current, depthO current <= n -> depthO current <= m ->
    printTypePath_while Number_toString n [] current
    = printTypePath_while Number_toString m [] current.
Proof.
  induction n as [|n IH]; intros m [c|] Hn Hm; simpl in *;
    try (destruct m; reflexivity).
  { pose proof (depth_pos c). lia. }
  destruct m as [|m]; [pose proof (depth_pos c); lia|]. simpl.
  pose proof (path_step_depth c).
  rewrite (printTypePath_while_app n), (printTypePath_while_app m).
  rewrite (IH m) by lia. reflexivity.
Qed.

Lemma printTypePath_while_returns (n : nat) :
  forall current, depthO current <= n ->
    exists p, printTypePath_while Number_toString n [] current = Done p
              /\ (current <> None -> p <> []).
Proof.
  induction n as [|n IH]; intros [c|] Hn; simpl in *.
  - pose proof (depth_pos c). lia.
  - exists []. split; [reflexivity|congruence].
  - pose proof (path_step_depth c).
    rewrite printTypePath_while_app.
    destruct (IH (snd (path_step Number_toString c))) as [p [-> _]]; [lia|].
    simpl. eexists. split; [reflexivity|discriminate].
  - exists []. split; [reflexivity|congruence].
Qed.

(** X22: the loop of [printTypePath] ends within as many turns as the tree
    is deep, and the text it builds reads node by node: the path of a node
    the walk stops at is its label, and the path of any other node is its
    label, [" -> "], and the path of the child the walk steps into. *)
Theorem printTypePath_label_then_child (t : TypeInfo) :
  (forall turns, depth t <= turns ->
     printTypePathF Number_toString turns (Some t)
     = Done (printTypePath Number_toString (Some t)))
  /\ printTypePath Number_toString (Some t)
     = match snd (path_step Number_toString t) with
       | None => fst (path_step Number_toString t)
       | Some child =>
           fst (path_step Number_toString t) ++ " -> "
           ++ printTypePath Number_toString (Some child)
       end.
Proof.
  split.
  - intros turns Ht. unfold printTypePath, printTypePathF.
    rewrite (printTypePath_while_stable turns (depth t)) by (simpl; lia).
    destruct (printTypePath_while_returns (depth t) (Some t)) as [p [Hp _]];
      [simpl; lia|].
    simpl depthO. now rewrite Hp.
  - unfold printTypePath, printTypePathF. simpl depthO.
    pose proof (depth_pos t) as Hpos.
    destruct (depth t) as [|d] eqn:Ed; [lia|]. simpl.
    pose proof (path_step_depth t) as Hs. rewrite Ed in Hs.
    rewrite printTypePath_while_app.
    destruct (snd (path_step Number_toString t)) as [child|] eqn:En;
      simpl in Hs.
    + rewrite (printTypePath_while_stable d (depth child)) by (simpl; lia).
      destruct (printTypePath_while_returns (depth child) (Some child))
        as [p [Hp Hne]]; [simpl; lia|].
      rewrite Hp. simpl. destruct p; [|reflexivity].
      exfalso. apply Hne; [discriminate|reflexivity].
    + destruct d; reflexivity.
Qed.
End PrintTypePathFacts.

(** X22 at a concrete input: [Array<string>] prints as ["Array -> string"]
    with two turns. *)
Lemma printTypePath_label_then_child_witness :
  depth (TCollection CArray (TPrimitive "string")) <= 2
  /\ printTypePathF (fun _ => EmptyString) 2
       (Some (TCollection CArray (TPrimitive "string")))
     = Done "Array -> string".
Proof.
  split; [simpl; lia|].
  apply (proj1 (printTypePath_label_then_child (fun _ => EmptyString)
                  (TCollection CArray (TPrimitive "string"))) 2).
  simpl; lia.
Defined.

(** X23: whatever the node, the text of [printTypeTree] at depth [d] starts
    with [d] times two spaces, then [{ kind: ] and the kind of the node as
    text between double quotes: every node is printed behind the indentation
    of its level and under its own tag. *)
Theorem printTypeTree_starts_with_kind
  (json_literal : LiteralValue -> string)
  (json_values : Record_ EnumValue -> string) (t : TypeInfo) (d : nat) :
  exists rest,
    printTypeTree json_literal json_values (Some t) d
    = repeat_string "  " d ++ "{ kind: " ++ dq ++ kind_name (kind t) ++ dq ++ rest.
Proof.
  pose proof (printTypeTreeF_Done json_literal json_values
                (S (depth t)) (Some t) d) as H.
  specialize (H ltac:(simpl; lia)).
  remember (depth t) as calls eqn:Ec. clear Ec.
  destruct t as [| |[]|[]| |[]| | | | | | | | | | | | | | | | |];
    cbn [printTypeTreeF] in H;
    repeat match type of H with
      | context [bind ?m _] =>
          let E := fresh "E" in
          destruct m eqn:E; cbn [bind] in H; [discriminate H|]
      end;
    apply Done_inj in H; rewrite <- H;
    cbn [kind collection_kind deferred_kind keyed_kind];
    eexists; simpl; reflexivity.
Qed.

(** * The predicates *)

(** X24: the eighteen [is...] predicates never overlap: on every node at
    most one of them is true, and on absent input none is. *)
Theorem predicates_exclusive (typeInfo : option TypeInfo) :
  length (filter (fun is_kind : option TypeInfo -> bool => is_kind typeInfo)
            [isUnion; isIntersection; isOptional; isNullable; isFunction;
             isClass; isInterface; isGeneric; isLiteral; isEnum; isTuple;
             isObject; isPrimitive; isArray; isPromise; isSet; isMap;
             isObservable]) <= 1
  /\ (typeInfo = None ->
      forall is_kind,
        In is_kind [isUnion; isIntersection; isOptional; isNullable; isFunction;
                    isClass; isInterface; isGeneric; isLiteral; isEnum; isTuple;
                    isObject; isPrimitive; isArray; isPromise; isSet; isMap;
                    isObservable] ->
        is_kind typeInfo = false).
Proof.
  split.
  - destruct typeInfo as [t|]; [|simpl; lia].
    destruct t as [| |[]|[]| |[]| | | | | | | | | | | | | | | | |];
      simpl; lia.
  - intros -> is_kind H. simpl in H.
    repeat (destruct H as [<-|H]; [reflexivity|]). contradiction.
Qed.
